(** * ai-comment-assistant: the comment pipeline of [.github/scripts/aicomment.js]

    A shallow embedding of the script that answers [/ai] comments on GitHub
    issues, and the properties of its command parser, context builder,
    comment publisher and top-level failure handler.

    - JavaScript strings are sequences of UTF-16 code units ([list N]).
    - Asynchronous functions are programs of a small free monad ([prog]):
      console output, awaited calls of the two collaborators (the comment
      store behind Octokit, the model endpoint) and exceptions.
    - The collaborators are an oracle ([world]) answering every call from the
      history of the calls settled so far. *)

From Stdlib Require Import List NArith ZArith Bool String Ascii Lia.
Import ListNotations.

(** ** JavaScript strings *)

Module JS.

Definition jsstring := list N.

(** An ASCII literal as a JavaScript string. *)
Definition lit (s : string) : jsstring :=
  map N_of_ascii (list_ascii_of_string s).

Definition dquote : N := 34.
Definition backtick : N := 96.
Definition nl : N := 10.
Definition space : N := 32.

Fixpoint streq (a b : jsstring) : bool :=
  match a, b with
  | [], [] => true
  | x :: a', y :: b' => N.eqb x y && streq a' b'
  | _, _ => false
  end.

(** The characters matched by [\s] and removed by [String.prototype.trim]:
    WhiteSpace and LineTerminator of ECMA-262. *)
Definition isWhiteSpace (c : N) : bool :=
  (N.leb 9 c && N.leb c 13)
  || N.eqb c 32 || N.eqb c 160 || N.eqb c 5760
  || (N.leb 8192 c && N.leb c 8202)
  || N.eqb c 8232 || N.eqb c 8233 || N.eqb c 8239 || N.eqb c 8287
  || N.eqb c 12288 || N.eqb c 65279.

(** [\w] without the unicode and ignoreCase flags: [A-Za-z0-9_]. *)
Definition isWordChar (c : N) : bool :=
  (N.leb 65 c && N.leb c 90) || (N.leb 97 c && N.leb c 122)
  || (N.leb 48 c && N.leb c 57) || N.eqb c 95.

Fixpoint dropWhile (f : N -> bool) (s : jsstring) : jsstring :=
  match s with
  | [] => []
  | c :: r => if f c then dropWhile f r else s
  end.

Definition dropWhileEnd (f : N -> bool) (s : jsstring) : jsstring :=
  rev (dropWhile f (rev s)).

Definition trimStart (s : jsstring) : jsstring := dropWhile isWhiteSpace s.
Definition trimEnd (s : jsstring) : jsstring := dropWhileEnd isWhiteSpace s.

(** [s.trim()] *)
Definition trim (s : jsstring) : jsstring := trimStart (trimEnd s).

(** [s.startsWith(p)] *)
Fixpoint startsWith (p s : jsstring) : bool :=
  match p, s with
  | [], _ => true
  | x :: p', y :: s' => N.eqb x y && startsWith p' s'
  | _ :: _, [] => false
  end.

Definition endsWith (p s : jsstring) : bool := startsWith (rev p) (rev s).

(** [s.includes(p)] *)
Fixpoint includes (p s : jsstring) : bool :=
  startsWith p s ||
  match s with
  | [] => false
  | _ :: r => includes p r
  end.

(** [s.substring(n)] and [s.substring(0, n)]; both clamp to the length. *)
Definition substring (n : nat) (s : jsstring) : jsstring := skipn n s.
Definition substringTo (n : nat) (s : jsstring) : jsstring := firstn n s.

(** [parts.join(sep)] *)
Fixpoint join (sep : jsstring) (parts : list jsstring) : jsstring :=
  match parts with
  | [] => []
  | [p] => p
  | p :: ps => p ++ sep ++ join sep ps
  end.

(** [s.split(/\s+/)]: the pieces between maximal runs of whitespace.  A
    leading or trailing run leaves an empty first or last piece, and the
    empty string splits into one empty piece.  [inws] tells that the
    previous character belonged to a separator. *)
Fixpoint splitWs (inws : bool) (s : jsstring) : list jsstring :=
  match s with
  | [] => [[]]
  | c :: r =>
      if isWhiteSpace c then
        if inws then splitWs true r else [] :: splitWs true r
      else
        match splitWs false r with
        | t :: ts => (c :: t) :: ts
        | [] => [[c]]
        end
  end.

Definition split_ws (s : jsstring) : list jsstring := splitWs false s.

(** [s.split('\n')] *)
Fixpoint splitOn (sep : N) (s : jsstring) : list jsstring :=
  match s with
  | [] => [[]]
  | c :: r =>
      if N.eqb c sep then [] :: splitOn sep r
      else
        match splitOn sep r with
        | t :: ts => (c :: t) :: ts
        | [] => [[c]]
        end
  end.

(** ASCII case folding.  [String.prototype.toLowerCase] agrees with it on
    strings of Basic Latin characters; the development takes the case
    mapping as a parameter and uses this one for its ASCII examples. *)
Definition asciiLower (s : jsstring) : jsstring :=
  map (fun c => if N.leb 65 c && N.leb c 90 then (c + 32)%N else c) s.

End JS.
Import JS.

(** ** Values, the alias table and the data of the comment store *)

(** What a property read of the alias table can give: nothing, one of the
    table's strings, or a member that every object inherits from
    [Object.prototype]. *)
Inductive jsval :=
| JUndefined
| JString (s : jsstring)
| JInherited (k : jsstring).

(** Truthiness, as tested by [if (v)], [!v] and [v || d]. *)
Definition truthy (v : jsval) : bool :=
  match v with
  | JUndefined => false
  | JString s => negb (streq s [])
  | JInherited _ => true
  end.

Definition truthyStr (s : jsstring) : bool := negb (streq s []).

(** A string that may be undefined, when it is truthy: set and not empty. *)
Definition present (v : option jsstring) : option jsstring :=
  match v with
  | Some s => if truthyStr s then Some s else None
  | None => None
  end.

(** [v || d] on a string that may be null or undefined. *)
Definition orElse (v : option jsstring) (d : jsstring) : jsstring :=
  match v with
  | Some s => if truthyStr s then s else d
  | None => d
  end.

(** The object read from [model-map.json]: its own properties, in the order
    [Object.keys] lists them; keys are distinct, values are strings. *)
Definition modelMapT := list (jsstring * jsstring).

Fixpoint getOwn (m : modelMapT) (k : jsstring) : option jsstring :=
  match m with
  | [] => None
  | (k', v) :: m' => if streq k' k then Some v else getOwn m' k
  end.

(** The property names of [Object.prototype]. *)
Definition objectPrototypeKeys : list jsstring :=
  map lit ["constructor"; "__defineGetter__"; "__defineSetter__";
           "hasOwnProperty"; "__lookupGetter__"; "__lookupSetter__";
           "isPrototypeOf"; "propertyIsEnumerable"; "toString"; "valueOf";
           "__proto__"; "toLocaleString"]%string.

Definition inherited (k : jsstring) : bool :=
  existsb (streq k) objectPrototypeKeys.

(** [modelMap[k]]: an own property first, then the prototype. *)
Definition getProp (m : modelMapT) (k : jsstring) : jsval :=
  match getOwn m k with
  | Some v => JString v
  | None => if inherited k then JInherited k else JUndefined
  end.

(** [Object.keys(modelMap)] *)
Definition keys (m : modelMapT) : list jsstring := map fst m.

(** A thrown value: an [Error] with its message, and the HTTP status that
    Octokit's request errors carry. *)
Record error := { message : jsstring; status : option Z }.

Definition newError (msg : jsstring) : error :=
  {| message := msg; status := None |}.

(** A number that may be [NaN], as [parseInt] returns it. *)
Inductive jsnum := NaN | Num (z : Z).

Record issue := { issue_title : jsstring; issue_body : option jsstring }.

Record comment := {
  comment_body : jsstring;
  comment_user_login : jsstring;
  comment_created_at : jsstring
}.

(** The answer of the model endpoint: [isUnexpected(response)] with
    [response.body.error.message], or [choices[0].message.content]. *)
Inductive chatResponse :=
| Unexpected (errorMessage : jsstring)
| Choices (content : jsstring).

(** [config.github].  [issueNumber] is [parseInt] of the variable
    ISSUE_NUMBER, with 0 standing for [NaN] as well: the validation of the
    script rejects both. *)
Record config := {
  commentBody : jsstring;
  issueNumber : Z;
  repoOwner : jsstring;
  repoName : jsstring
}.

(** [process.env] and the files the script reads.  [defaultPath] is the
    result of [path.join(GITHUB_WORKSPACE || '.', '.github', 'prompts',
    'prompt.md')]; [readFile p] is the content of the file at [p] when
    [fs.existsSync(p)]; [modelMapFile] is the parsed [model-map.json] when
    the file exists. *)
Record environment := {
  COMMENT_AUTHOR : option jsstring;
  PROCESSING_COMMENT_ID : option jsstring;
  AI_SYSTEM_PROMPT_PATH : option jsstring;
  AI_SYSTEM_PROMPT : option jsstring;
  defaultPath : jsstring;
  readFile : jsstring -> option jsstring;
  modelMapFile : option modelMapT
}.

(** ** Context Builder: classification of the comment thread *)

Module Context.

(** The hidden completion marker the publisher appends. *)
Definition marker : jsstring := lit "<!-- AI_RESPONSE -->".

Definition trigger : jsstring := lit "/ai ".

(** [s.replace(/^@[\w-]+\s*\n*/, '')]: an [@] at the very start, a
    non-empty run of word characters and dashes, and the whitespace that
    follows it (after the greedy [\s*] no newline is left for [\n*]). *)
Definition stripMention (s : jsstring) : jsstring :=
  match s with
  | c :: r =>
      if N.eqb c 64 then
        let isName := fun d => isWordChar d || N.eqb d 45 in
        match r with
        | d :: _ =>
            if isName d then dropWhile isWhiteSpace (dropWhile isName r)
            else s
        | [] => s
        end
      else s
  | [] => s
  end.

(** [s.replace(/\n*<!-- AI_RESPONSE -->\s*$/, '')]: the marker is removed
    when only whitespace follows it up to the end of the string, together
    with that whitespace and the newlines right before the marker; any other
    string is left as it is. *)
Definition stripMarker (s : jsstring) : jsstring :=
  let t := trimEnd s in
  if endsWith marker t then
    dropWhileEnd (N.eqb nl) (rev (skipn (List.length marker) (rev t)))
  else s.

Inductive role := user | user_prompt | assistant.

Record entry := {
  entry_role : role;
  author : jsstring;
  timestamp : jsstring;
  content : jsstring
}.

(** The callback of [comments.map] in [getIssueContext]. *)
Definition classify (c : comment) : entry :=
  let isUserPrompt := startsWith trigger (trim (comment_body c)) in
  let isAIResponse := includes marker (comment_body c) in
  let rc :=
    if isUserPrompt then
      (user_prompt, trim (substring 4 (comment_body c)))
    else if isAIResponse then
      (assistant, trim (stripMarker (stripMention (comment_body c))))
    else (user, comment_body c) in
  {| entry_role := fst rc;
     author := comment_user_login c;
     timestamp := comment_created_at c;
     content := snd rc |}.

Definition roleName (r : role) : jsstring :=
  match r with
  | user => lit "user"
  | user_prompt => lit "user_prompt"
  | assistant => lit "assistant"
  end.

(** *** [JSON.stringify(value, null, 2)] on an array of entries *)

Definition hexDigit (d : N) : N :=
  if N.ltb d 10 then (48 + d)%N else (87 + d)%N.

(** [\uXXXX] with lower-case hexadecimal digits. *)
Definition unicodeEscape (c : N) : jsstring :=
  [92; 117; hexDigit (N.modulo (N.div c 4096) 16);
   hexDigit (N.modulo (N.div c 256) 16);
   hexDigit (N.modulo (N.div c 16) 16); hexDigit (N.modulo c 16)]%N.

Definition isLeadSurrogate (c : N) : bool := N.leb 55296 c && N.leb c 56319.
Definition isTrailSurrogate (c : N) : bool := N.leb 56320 c && N.leb c 57343.

(** One code unit that is not part of a surrogate pair. *)
Definition quoteUnit (c : N) : jsstring :=
  (if N.eqb c 8 then [92; 98]
   else if N.eqb c 9 then [92; 116]
   else if N.eqb c 10 then [92; 110]
   else if N.eqb c 12 then [92; 102]
   else if N.eqb c 13 then [92; 114]
   else if N.eqb c 34 then [92; 34]
   else if N.eqb c 92 then [92; 92]
   else if N.ltb c 32 || isLeadSurrogate c || isTrailSurrogate c
        then unicodeEscape c
   else [c])%N.

(** QuoteJSONString without the enclosing quotes: a well-formed surrogate
    pair is copied, a lone surrogate is escaped. *)
Fixpoint quoteUnits (s : jsstring) : jsstring :=
  match s with
  | [] => []
  | c :: r =>
      match r with
      | d :: r' =>
          if isLeadSurrogate c && isTrailSurrogate d
          then c :: d :: quoteUnits r'
          else quoteUnit c ++ quoteUnits r
      | [] => quoteUnit c
      end
  end.

Definition quoteJSONString (s : jsstring) : jsstring :=
  [dquote] ++ quoteUnits s ++ [dquote].

Definition member (key value : jsstring) : jsstring :=
  quoteJSONString key ++ lit ": " ++ quoteJSONString value.

(** An object of the array: its members sit at indentation 4, its closing
    brace at indentation 2. *)
Definition stringifyEntry (e : entry) : jsstring :=
  lit "{" ++ [nl] ++ lit "    " ++
  join (lit "," ++ [nl] ++ lit "    ")
    [member (lit "role") (roleName (entry_role e));
     member (lit "author") (author e);
     member (lit "timestamp") (timestamp e);
     member (lit "content") (content e)] ++
  [nl] ++ lit "  " ++ lit "}".

Definition stringify (es : list entry) : jsstring :=
  match es with
  | [] => lit "[]"
  | _ => lit "[" ++ [nl] ++ lit "  " ++
         join (lit "," ++ [nl] ++ lit "  ") (map stringifyEntry es) ++
         [nl] ++ lit "]"
  end.

(** [commentsText] of [getIssueContext]: empty for an empty thread. *)
Definition commentsText (comments : list comment) : jsstring :=
  if Nat.ltb 0 (List.length comments) then stringify (map classify comments)
  else [].

End Context.
Import Context.

(** ** Asynchronous programs *)

(** The calls the script awaits: four operations of the comment store
    ([octokit.issues]) and the chat completion of the model endpoint, sent
    with the constant sampling parameters [temperature: 0.7], [top_p: 1.0]. *)
Inductive api : Type -> Type :=
| issues_updateComment (owner repo : jsstring) (comment_id : Z)
    (body : jsstring) : api unit
| issues_createComment (owner repo : jsstring) (issue_number : Z)
    (body : jsstring) : api unit
| issues_get (owner repo : jsstring) (issue_number : Z) : api issue
| issues_listComments (owner repo : jsstring) (issue_number : Z)
    : api (list comment)
| chat_completions (systemContent userContent : jsstring) (model : jsval)
    : api chatResponse.

(** How an awaited promise settles. *)
Inductive settled (X : Type) :=
| Fulfilled (x : X)
| Rejected (e : error).
Arguments Fulfilled {X} x.
Arguments Rejected {X} e.

(** The arguments of [console.log] and [console.error], and the values
    interpolated into their template literals. *)
Inductive piece :=
| T (s : string)
| S (s : jsstring)
| I (z : Z)
| Id (i : option jsnum)
| O (s : option jsstring)
| V (v : jsval)
| E (e : error).

Inductive stream := stdout | stderr.

(** A program: it returns, throws, writes a line to the console and goes
    on, or awaits a call and goes on with the way the call settled. *)
Inductive prog (A : Type) : Type :=
| Ret (a : A)
| Throw (e : error)
| Log (o : stream) (l : list piece) (k : prog A)
| Await (X : Type) (c : api X) (k : settled X -> prog A).
Arguments Ret {A} a.
Arguments Throw {A} e.
Arguments Log {A} o l k.
Arguments Await {A X} c k.

Fixpoint bind {A B : Type} (p : prog A) (f : A -> prog B) : prog B :=
  match p with
  | Ret a => f a
  | Throw e => Throw e
  | Log o l k => Log o l (bind k f)
  | Await c k => Await c (fun r => bind (k r) f)
  end.

(** [try { p } catch (error) { h error }] *)
Fixpoint tryCatch {A : Type} (p : prog A) (h : error -> prog A) : prog A :=
  match p with
  | Ret a => Ret a
  | Throw e => h e
  | Log o l k => Log o l (tryCatch k h)
  | Await c k => Await c (fun r => tryCatch (k r) h)
  end.

Notation "x <- c ;; k" := (bind c (fun x => k))
  (at level 61, c at next level, right associativity).
Notation "c ;; k" := (bind c (fun _ => k))
  (at level 61, right associativity).

Definition console_log (l : list piece) : prog unit := Log stdout l (Ret tt).
Definition console_error (l : list piece) : prog unit := Log stderr l (Ret tt).

(** [await c]: the value of a fulfilled promise; a rejection is thrown. *)
Definition await {X : Type} (c : api X) : prog X :=
  Await c (fun r => match r with
                    | Fulfilled x => Ret x
                    | Rejected e => Throw e
                    end).

(** *** Runs *)

(** What a run leaves behind: a console line, a call with the way it
    settled, or a call that was made and had not settled when the process
    ended. *)
Inductive event :=
| EvLog (o : stream) (l : list piece)
| EvSettled (X : Type) (c : api X) (r : settled X)
| EvPending (X : Type) (c : api X).
Arguments EvSettled {X} c r.
Arguments EvPending {X} c.

(** The collaborators: the answer to a call, given the calls settled before
    it in this run. *)
Definition world := list event -> forall X : Type, api X -> settled X.

Inductive result (A : Type) :=
| Returned (a : A)
| Thrown (e : error).
Arguments Returned {A} a.
Arguments Thrown {A} e.

(** A program run to its end, every await resumed: the result and the
    events in order.  [h] is the history of settled calls. *)
Fixpoint exec {A : Type} (w : world) (h : list event) (p : prog A)
  : result A * list event :=
  match p with
  | Ret a => (Returned a, [])
  | Throw e => (Thrown e, [])
  | Log o l k =>
      let (r, t) := exec w h k in (r, EvLog o l :: t)
  | Await c k =>
      let a := w h _ c in
      let (r, t) := exec w (h ++ [EvSettled c a]) (k a) in
      (r, EvSettled c a :: t)
  end.

(** The part of an asynchronous function that runs inside the call itself:
    everything up to its first [await], where the awaited call has been made
    and the function is suspended. *)
Fixpoint syncPrefix {A : Type} (p : prog A) : list event :=
  match p with
  | Ret _ => []
  | Throw _ => []
  | Log o l k => EvLog o l :: syncPrefix k
  | Await c _ => [EvPending c]
  end.

(** The calls of a run, and the bodies of the comments that a run created
    or updated with success. *)
Definition isCall (e : event) : bool :=
  match e with
  | EvLog _ _ => false
  | _ => true
  end.

Definition calls (t : list event) : list event := filter isCall t.

Definition postedBody (e : event) : list jsstring :=
  match e with
  | EvSettled c (Fulfilled _) =>
      match c with
      | issues_updateComment _ _ _ b => [b]
      | issues_createComment _ _ _ b => [b]
      | _ => []
      end
  | _ => []
  end.

Definition posted (t : list event) : list jsstring := flat_map postedBody t.

(** The requests a run made to the model endpoint, settled or pending:
    the model and the user message of each. *)
Definition chatRequest (e : event) : list (jsval * jsstring) :=
  match e with
  | EvSettled c _ | EvPending c =>
      match c with
      | chat_completions _ u m => [(m, u)]
      | _ => []
      end
  | EvLog _ _ => []
  end.

Definition backendRequests (t : list event) : list (jsval * jsstring) :=
  flat_map chatRequest t.

(** ** The script *)

Definition isDigit (c : N) : bool := N.leb 48 c && N.leb c 57.

Fixpoint digitsValue (acc : Z) (s : jsstring) : Z :=
  match s with
  | c :: r =>
      if isDigit c then digitsValue (10 * acc + Z.of_N (c - 48)) r else acc
  | [] => acc
  end.

(** [parseInt(s, 10)]: leading whitespace, a sign, then the longest run of
    decimal digits; [NaN] without a digit.  (Exact below 2^53, where comment
    ids are.) *)
Definition parseInt (s : jsstring) : jsnum :=
  let t := trimStart s in
  let su :=
    match t with
    | c :: r =>
        if N.eqb c 45 then (true, r)
        else if N.eqb c 43 then (false, r) else (false, t)
    | [] => (false, t)
    end in
  match snd su with
  | c :: _ =>
      if isDigit c
      then Num ((if fst su then -1 else 1) * digitsValue 0 (snd su))
      else NaN
  | [] => NaN
  end.

(** [if (processingCommentId)]: neither [null], [NaN] nor [0]. *)
Definition truthyId (i : option jsnum) : option Z :=
  match i with
  | Some (Num z) => if Z.eqb z 0 then None else Some z
  | _ => None
  end.

Record issueContextT := {
  ctx_title : jsstring;
  ctx_body : jsstring;
  ctx_comments : jsstring
}.

(** The outcome of lines 244-264 of [main]. *)
Record command := {
  explicit : bool;
  modelAlias : jsstring;
  modelIdentifier : jsval;
  prompt : jsstring
}.

Definition defaultPrompt : jsstring :=
  lit "You are a helpful assistant integrated into GitHub issues. The user is commenting on an issue. Provide your answer in the context of the original issue description provided below.".

Definition noDescription : jsstring := lit "This issue has no description.".

(** [`${Object.keys(modelMap).filter(k => k !== 'default').join('`, `')}`]
    between two backticks. *)
Definition availableAliases (modelMap : modelMapT) : jsstring :=
  [backtick] ++
  join (lit "`, `")
    (filter (fun k => negb (streq k (lit "default"))) (keys modelMap)) ++
  [backtick].

Definition unknownModelMessage (modelMap : modelMapT) : jsstring :=
  lit "I could not find a model to use. Please specify one or ensure a " ++
  [dquote] ++ lit "default" ++ [dquote] ++ lit " is configured." ++
  [nl; nl] ++ lit "Available models: " ++ availableAliases modelMap.

Definition usageMessage (modelMap : modelMapT) : jsstring :=
  lit "It looks like you used the `/ai` command without a question. Please provide a prompt." ++
  [nl; nl] ++ lit "**Usage:**" ++ [nl] ++
  lit "* `/ai <your prompt>` (uses default model)" ++ [nl] ++
  lit "* `/ai <model> <your prompt>`" ++ [nl; nl] ++
  lit "**Available models:** " ++ availableAliases modelMap.

Definition cautionMessage (err : error) : jsstring :=
  lit "> [!CAUTION]" ++ [nl] ++
  lit "> Sorry, I encountered an error and could not process your request:" ++
  [nl] ++ lit "> `" ++ message err ++ lit "`".

(** The template literal of [getAiResponse], before [.trim()]. *)
Definition systemMessage (systemPrompt : jsstring) (issueContext : issueContextT)
  : jsstring :=
  systemPrompt ++ [nl; nl] ++
  lit "--- Issue Context ---" ++ [nl] ++
  lit "Title: " ++ ctx_title issueContext ++ [nl] ++
  lit "Body: " ++ ctx_body issueContext ++ [nl; nl] ++
  lit "--- Conversation History ---" ++ [nl] ++
  lit "The following is a JSON array of the conversation history on this issue:" ++ [nl] ++
  lit "- " ++ [dquote] ++ lit "role" ++ [dquote] ++ lit ": " ++
    [dquote] ++ lit "user" ++ [dquote] ++ lit " = regular user comment" ++ [nl] ++
  lit "- " ++ [dquote] ++ lit "role" ++ [dquote] ++ lit ": " ++
    [dquote] ++ lit "user_prompt" ++ [dquote] ++
    lit " = user's AI prompt (started with /ai)" ++ [nl] ++
  lit "- " ++ [dquote] ++ lit "role" ++ [dquote] ++ lit ": " ++
    [dquote] ++ lit "assistant" ++ [dquote] ++
    lit " = your previous AI responses" ++ [nl; nl] ++
  orElse (Some (ctx_comments issueContext)) (lit "[]") ++ [nl] ++
  lit "--- End Context ---".

Definition responseWithTag (commentAuthor aiResponse : jsstring) : jsstring :=
  lit "@" ++ commentAuthor ++ [nl; nl] ++ aiResponse ++ [nl; nl] ++ marker.

Definition hint404 : list piece :=
  [S [nl]; T "[Hint] A '404 Not Found' error from GitHub usually means the repository or issue number in your .env file is incorrect or you don't have access. Please double-check REPO_OWNER, REPO_NAME, and ISSUE_NUMBER."].

Section Script.

(** [String.prototype.toLowerCase], [config.github] and the process
    environment of one invocation. *)
Variable toLowerCase : jsstring -> jsstring.
Variable cfg : config.
Variable env : environment.

(** [postCommentToIssue(body, processingCommentId = null)].  The flag tells
    whether the function returned from inside its [try] block. *)
Definition postCommentToIssue (body : jsstring)
    (processingCommentId : option jsnum) : prog unit :=
  console_log [T "postCommentToIssue called with processingCommentId: ";
               Id processingCommentId] ;;
  returned <-
    match truthyId processingCommentId with
    | Some id =>
        tryCatch
          (console_log [T "Attempting to update comment "; I id] ;;
           await (issues_updateComment (repoOwner cfg) (repoName cfg) id body) ;;
           console_log [T "Successfully updated processing comment "; I id;
                        T " with AI response."] ;;
           Ret true)
          (fun error =>
             console_error [T "Error updating processing comment "; I id;
                            T ": "; S (message error)] ;;
             console_error [T "Error details:"; E error] ;;
             Ret false)
    | None =>
        console_log [T "No processingCommentId provided, will create new comment"] ;;
        Ret false
    end ;;
  if returned : bool then Ret tt
  else
    console_log [T "Creating new comment as fallback"] ;;
    await (issues_createComment (repoOwner cfg) (repoName cfg)
             (issueNumber cfg) body) ;;
    console_log [T "Successfully posted a comment to issue #";
                 I (issueNumber cfg); T "."].

(** [getSystemPrompt()]: custom path, default file, environment variable,
    built-in text. *)
Definition getSystemPrompt : prog jsstring :=
  let custom :=
    match present (AI_SYSTEM_PROMPT_PATH env) with
    | Some customPath =>
        option_map (pair customPath) (readFile env customPath)
    | None => None
    end in
  match custom with
  | Some (customPath, text) =>
      console_log [T "Loading system prompt from custom path: "; S customPath] ;;
      Ret text
  | None =>
      match readFile env (defaultPath env) with
      | Some text =>
          console_log [T "Loading system prompt from default path: ";
                       S (defaultPath env)] ;;
          Ret text
      | None =>
          match present (AI_SYSTEM_PROMPT env) with
          | Some envPrompt =>
              console_log [T "Loading system prompt from AI_SYSTEM_PROMPT environment variable."] ;;
              Ret envPrompt
          | None =>
              console_log [T "Using default system prompt."] ;;
              Ret defaultPrompt
          end
      end
  end.

(** [loadModelMap()] *)
Definition loadModelMap : prog modelMapT :=
  match modelMapFile env with
  | None =>
      Throw (newError
        (lit "CRITICAL: model-map.json not found in the action directory."))
  | Some modelMap => Ret modelMap
  end.

(** [getAiResponse(prompt, issueContext, systemPrompt, modelIdentifier)] *)
Definition getAiResponse (prompt : jsstring) (issueContext : issueContextT)
    (systemPrompt : jsstring) (modelIdentifier : jsval) : prog jsstring :=
  response <- await (chat_completions
                       (trim (systemMessage systemPrompt issueContext))
                       prompt modelIdentifier) ;;
  match response with
  | Unexpected errorMessage =>
      console_error [T "Azure AI API Error:"; S errorMessage] ;;
      Throw (newError (lit "AI API call failed: " ++ errorMessage))
  | Choices content => Ret content
  end.

(** [getIssueContext()] *)
Definition getIssueContext : prog issueContextT :=
  issue <- await (issues_get (repoOwner cfg) (repoName cfg) (issueNumber cfg)) ;;
  console_log [T "Fetched context for issue #"; I (issueNumber cfg); T "."] ;;
  let issueBody := orElse (issue_body issue) noDescription in
  comments <- await (issues_listComments (repoOwner cfg) (repoName cfg)
                       (issueNumber cfg)) ;;
  let commentsText := commentsText comments in
  console_log [S [nl]; T "--- Issue Details ---"] ;;
  console_log [T "Title: "; S (issue_title issue)] ;;
  console_log [T "Body Preview: "; S (substringTo 200 issueBody); T "..."] ;;
  console_log [T "Comments Count: "; I (Z.of_nat (List.length comments))] ;;
  console_log [T "---------------------"; S [nl]] ;;
  Ret {| ctx_title := issue_title issue;
         ctx_body := issueBody;
         ctx_comments := commentsText |}.

(** Lines 244-264 of [main]: the alias and the prompt of a command text. *)
Definition parseCommand (modelMap : modelMapT) (commandContent : jsstring)
  : command :=
  let parts := split_ws commandContent in
  let potentialAlias := toLowerCase (hd [] parts) in
  if truthy (getProp modelMap potentialAlias) then
    {| explicit := true;
       modelAlias := potentialAlias;
       modelIdentifier := getProp modelMap potentialAlias;
       prompt := join (lit " ") (tl parts) |}
  else
    {| explicit := false;
       modelAlias := lit "default";
       modelIdentifier := getProp modelMap (lit "default");
       prompt := commandContent |}.

(** [commentText.substring(4).trim()] *)
Definition commandContentOf (commentText : jsstring) : jsstring :=
  trim (substring 4 commentText).

(** [process.env["PROCESSING_COMMENT_ID"] ? parseInt(..., 10) : null] *)
Definition processingCommentIdOf (v : option jsstring) : option jsnum :=
  option_map parseInt (present v).

(** [main()] *)
Definition main : prog unit :=
  let commentText := trim (commentBody cfg) in
  if negb (startsWith trigger commentText) then
    console_log [T "Comment does not start with '/ai ', skipping."]
  else
    modelMap <- loadModelMap ;;
    let commandContent := commandContentOf commentText in
    let cmd := parseCommand modelMap commandContent in
    (if explicit cmd
     then console_log [T "Explicit model alias '"; S (modelAlias cmd);
                       T "' detected."]
     else console_log [T "No specific model alias detected, using default model."]) ;;
    if negb (truthy (modelIdentifier cmd)) then
      postCommentToIssue (unknownModelMessage modelMap) None
    else if negb (truthyStr (prompt cmd)) then
      postCommentToIssue (usageMessage modelMap) None ;;
      console_log [T "Posted a help message because the prompt was empty."]
    else
      console_log [T "Received prompt for issue #"; I (issueNumber cfg);
                   T " using model '"; S (modelAlias cmd); T "' (";
                   V (modelIdentifier cmd); T "): "; S [dquote];
                   S (prompt cmd); S [dquote]] ;;
      systemPrompt <- getSystemPrompt ;;
      issueContext <- getIssueContext ;;
      aiResponse <- getAiResponse (prompt cmd) issueContext systemPrompt
                      (modelIdentifier cmd) ;;
      console_log [T "=== RAW AI RESPONSE ==="] ;;
      let aiLines := splitOn nl aiResponse in
      console_log [T "First line:"; O (nth_error aiLines 0)] ;;
      console_log [T "Second line:"; O (nth_error aiLines 1)] ;;
      console_log [T "========================"] ;;
      let commentAuthor := orElse (COMMENT_AUTHOR env) (lit "User") in
      let responseWithTag := responseWithTag commentAuthor aiResponse in
      console_log [T "=== FINAL RESPONSE WITH TAG ==="] ;;
      let finalLines := splitOn nl responseWithTag in
      console_log [T "First line:"; O (nth_error finalLines 0)] ;;
      console_log [T "Second line:"; O (nth_error finalLines 1)] ;;
      console_log [T "Third line:"; O (nth_error finalLines 2)] ;;
      console_log [T "==============================="] ;;
      let processingCommentId :=
        processingCommentIdOf (PROCESSING_COMMENT_ID env) in
      console_log [T "Using processing comment ID from environment: ";
                   Id processingCommentId] ;;
      postCommentToIssue responseWithTag processingCommentId.

(** How the process ends: the events in order and the exit status. *)
Record outcome := { trace : list event; exitCode : Z }.

Definition is404 (err : error) : bool :=
  match status err with
  | Some s => Z.eqb s 404
  | None => false
  end.

(** The handler of [main().catch(...)].  It calls [postCommentToIssue]
    without awaiting it and then [process.exit(1)]: the call runs up to its
    first [await] and the process ends there, before the pending request
    settles; the rejection logger registered with [.catch] on that promise
    is a later job of the event loop and does not run. *)
Definition fatalHandler (err : error) : list event :=
  EvLog stderr [T "The script encountered a fatal error:"; E err] ::
  (if is404 err then [EvLog stderr hint404]
   else syncPrefix (postCommentToIssue (cautionMessage err) None)).

(** The validation of [config.github] at the start of the script (the
    tokens of the two clients are taken to be present). *)
Definition validContext : bool :=
  truthyStr (commentBody cfg) && negb (Z.eqb (issueNumber cfg) 0) &&
  truthyStr (repoOwner cfg) && truthyStr (repoName cfg).

(** The whole invocation: the validation, then [main().catch(...)].  A run
    of [main] that returns lets the process end with status 0. *)
Definition toplevel (w : world) : outcome :=
  if validContext then
    match exec w [] main with
    | (Returned _, t) => {| trace := t; exitCode := 0 |}
    | (Thrown err, t) => {| trace := t ++ fatalHandler err; exitCode := 1 |}
    end
  else
    {| trace := [EvLog stderr
         [T "Error: Missing required GitHub context from the workflow."]];
       exitCode := 1 |}.

End Script.

(** ** Observations on runs *)

(** The comment lists that [issues.listComments] returned during a run. *)
Definition listedBy (e : event) : list (list comment) :=
  match e with
  | EvSettled c r =>
      match c in api X return settled X -> list (list comment) with
      | issues_listComments _ _ _ =>
          fun r => match r with
                   | Fulfilled cs => [cs]
                   | Rejected _ => []
                   end
      | _ => fun _ => []
      end r
  | _ => []
  end.

Definition listed (t : list event) : list (list comment) :=
  flat_map listedBy t.

Definition isPost (e : event) : bool :=
  match e with
  | EvSettled c _ | EvPending c =>
      match c with
      | issues_updateComment _ _ _ _ => true
      | issues_createComment _ _ _ _ => true
      | _ => false
      end
  | EvLog _ _ => false
  end.

(** The attempts of a run to write a comment: the create and update calls
    it made, settled or still pending when the process ended. *)
Definition postAttempts (t : list event) : list event := filter isPost t.

(** A string in which whitespace occurs only as single U+0020 characters
    between two non-whitespace characters.  [afterWord] tells that the
    previous character was not whitespace. *)
Fixpoint wellSpaced (afterWord : bool) (s : jsstring) : bool :=
  match s with
  | [] => afterWord
  | c :: r =>
      if isWhiteSpace c then afterWord && N.eqb c space && wellSpaced false r
      else wellSpaced true r
  end.

Definition singleSpaced (s : jsstring) : bool :=
  match s with
  | [] => true
  | _ => wellSpaced false s
  end.

(** A token: not empty and free of whitespace. *)
Definition cleanToken (t : jsstring) : Prop :=
  t <> [] /\ forallb (fun c => negb (isWhiteSpace c)) t = true.

(** The empty string, or a string whose last character is not whitespace. *)
Fixpoint endsClean (s : jsstring) : bool :=
  match s with
  | [] => true
  | c :: r =>
      match r with
      | [] => negb (isWhiteSpace c)
      | _ => endsClean r
      end
  end.

(** ** The command grammar as the specification words it

    "If the first token matches a known alias (case-insensitive) in the
    ModelAliasTable, that token becomes modelAlias and the remainder becomes
    the prompt; otherwise the whole remaining text is the prompt and
    modelAlias is default."  These definitions follow that sentence, to be
    compared with [parseCommand]. *)
Module Stated.

Section Grammar.
Variable toLowerCase : jsstring -> jsstring.

Definition knownAlias (modelMap : modelMapT) (token : jsstring) : bool :=
  existsb (fun k => streq (toLowerCase k) (toLowerCase token)) (keys modelMap).

(** The text after the first token and the whitespace that ends it. *)
Definition remainder (text : jsstring) : jsstring :=
  dropWhile isWhiteSpace (dropWhile (fun c => negb (isWhiteSpace c)) text).

Definition firstToken (text : jsstring) : jsstring := hd [] (split_ws text).

(** The pair of modelAlias and prompt. *)
Definition parse (modelMap : modelMapT) (text : jsstring)
  : jsstring * jsstring :=
  if knownAlias modelMap (firstToken text)
  then (firstToken text, remainder text)
  else (lit "default", text).

End Grammar.

End Stated.

(** ** Sample invocations *)

Module Sample.

Definition repo (body : jsstring) : config :=
  {| commentBody := body; issueNumber := 7;
     repoOwner := lit "octo"; repoName := lit "demo" |}.

Definition table1 : modelMapT := [(lit "default", lit "openai/gpt-4o")].

Definition table2 : modelMapT :=
  [(lit "gpt", lit "openai/gpt-4o");
   (lit "claude", lit "anthropic/claude-3.5-sonnet");
   (lit "default", lit "openai/gpt-4o")].

(** A table whose alias is written in upper case, and one whose alias has
    an empty identifier. *)
Definition table3 : modelMapT :=
  [(lit "GPT", lit "openai/gpt-4o"); (lit "default", lit "openai/gpt-4o-mini")].

Definition table4 : modelMapT :=
  [(lit "gpt", []); (lit "default", lit "openai/gpt-4o")].

Definition envOf (m : modelMapT) : environment :=
  {| COMMENT_AUTHOR := Some (lit "alice");
     PROCESSING_COMMENT_ID := None;
     AI_SYSTEM_PROMPT_PATH := None;
     AI_SYSTEM_PROMPT := None;
     defaultPath := lit ".github/prompts/prompt.md";
     readFile := fun _ => None;
     modelMapFile := Some m |}.

Definition issue1 : issue :=
  {| issue_title := lit "Build fails"; issue_body := None |}.

Definition issue2 : issue :=
  {| issue_title := lit "Another title";
     issue_body := Some (lit "Steps to reproduce") |}.

Definition thread1 : list comment :=
  [{| comment_body := lit "I see this too";
      comment_user_login := lit "bob";
      comment_created_at := lit "2025-01-01T00:00:00Z" |};
   {| comment_body := lit "/ai why does the build fail?";
      comment_user_login := lit "alice";
      comment_created_at := lit "2025-01-02T00:00:00Z" |};
   {| comment_body :=
        lit "@alice" ++ [nl; nl] ++ lit "A dependency is missing." ++
        [nl; nl] ++ marker;
      comment_user_login := lit "github-actions[bot]";
      comment_created_at := lit "2025-01-02T00:00:09Z" |}].

(** A comment store that accepts every write and serves the given issue and
    thread, next to a model endpoint with the given answer. *)
Definition serving (i : issue) (cs : list comment)
    (chat : settled chatResponse) : world :=
  fun _ X c =>
    match c in api X return settled X with
    | issues_updateComment _ _ _ _ => Fulfilled tt
    | issues_createComment _ _ _ _ => Fulfilled tt
    | issues_get _ _ _ => Fulfilled i
    | issues_listComments _ _ _ => Fulfilled cs
    | chat_completions _ _ _ => chat
    end.

Definition notFound : error :=
  {| message := lit "Not Found"; status := Some 404%Z |}.

Definition serverError : error :=
  {| message := lit "Bad Gateway"; status := Some 502%Z |}.

(** A comment store that answers every call with the given error. *)
Definition failing (e : error) : world :=
  fun _ X c => Rejected e.

(** A comment store whose updates fail and whose other calls succeed. *)
Definition updateFails (e : error) : world :=
  fun _ X c =>
    match c in api X return settled X with
    | issues_updateComment _ _ _ _ => Rejected e
    | issues_createComment _ _ _ _ => Fulfilled tt
    | issues_get _ _ _ => Fulfilled issue1
    | issues_listComments _ _ _ => Fulfilled []
    | chat_completions _ _ _ => Fulfilled (Choices (lit "ok"))
    end.

End Sample.

(** ** The failure policy as the specification words it

    "Any otherwise-unhandled failure during generation triggers a best-effort
    attempt to post a generic error comment to the originating issue before
    the process exits with failure status."  For a run of [main] that ends
    in an exception, the handler makes a create or update call. *)
Definition attemptsErrorComment (toLowerCase : jsstring -> jsstring)
    (cfg : config) (env : environment) (w : world) : Prop :=
  forall err t,
    exec w [] (main toLowerCase cfg env) = (Thrown err, t) ->
    postAttempts (fatalHandler cfg err) <> [].

(** ** Further observations and readers *)

(** The result of a run and its calls, console lines left out. *)
Definition run {A : Type} (w : world) (h : list event) (p : prog A)
  : result A * list event :=
  (fst (exec w h p), calls (snd (exec w h p))).

(** The first write of [postCommentToIssue]: the update of the placeholder
    when its id is truthy, the creation of a comment otherwise. *)
Definition firstWrite (cfg : config) (body : jsstring) (pid : option jsnum)
  : api unit :=
  match truthyId pid with
  | Some id => issues_updateComment (repoOwner cfg) (repoName cfg) id body
  | None => issues_createComment (repoOwner cfg) (repoName cfg)
              (issueNumber cfg) body
  end.

(** The characters of a mention, [[\w-]] in the pattern of [stripMention]. *)
Definition mentionChar (d : N) : bool := isWordChar d || N.eqb d 45.

(** *** A reader of the serialized history

    The inverse of the writer of [stringify]: it reads the escapes that
    [quoteUnits] writes and the layout of [JSON.stringify(value, null, 2)]
    for an array of entries. *)
Definition unhexDigit (h : N) : N :=
  if N.leb h 57 then (h - 48)%N else (h - 87)%N.

Definition unescape (e : N) : option N :=
  (if N.eqb e 98 then Some 8
   else if N.eqb e 116 then Some 9
   else if N.eqb e 110 then Some 10
   else if N.eqb e 102 then Some 12
   else if N.eqb e 114 then Some 13
   else if N.eqb e 34 then Some 34
   else if N.eqb e 92 then Some 92
   else None)%N.

Definition consFst (c : N) (r : option (jsstring * jsstring))
  : option (jsstring * jsstring) :=
  match r with
  | Some (s, rest) => Some (c :: s, rest)
  | None => None
  end.

(** The body of a JSON string up to its closing quote, decoded, and the
    text after that quote.  A control character is refused. *)
Fixpoint readUnits (s : jsstring) : option (jsstring * jsstring) :=
  match s with
  | [] => None
  | c :: r =>
      if N.eqb c 34 then Some ([], r)
      else if N.eqb c 92 then
        match r with
        | e :: r' =>
            if N.eqb e 117 then
              match r' with
              | h1 :: h2 :: h3 :: h4 :: r'' =>
                  consFst (4096 * unhexDigit h1 + 256 * unhexDigit h2
                           + 16 * unhexDigit h3 + unhexDigit h4)%N
                    (readUnits r'')
              | _ => None
              end
            else
              match unescape e with
              | Some d => consFst d (readUnits r')
              | None => None
              end
        | [] => None
        end
      else if N.ltb c 32 then None
      else consFst c (readUnits r)
  end.

(** The given text, then what follows it. *)
Definition expect (p s : jsstring) : option jsstring :=
  if startsWith p s then Some (skipn (List.length p) s) else None.

Definition readString (s : jsstring) : option (jsstring * jsstring) :=
  match expect [dquote] s with
  | Some r => readUnits r
  | None => None
  end.

Definition readRole (s : jsstring) : option role :=
  if streq s (lit "user") then Some user
  else if streq s (lit "user_prompt") then Some user_prompt
  else if streq s (lit "assistant") then Some assistant
  else None.

(** A member [key: string] after the given separator. *)
Definition readMember (sep key s : jsstring) : option (jsstring * jsstring) :=
  match expect (sep ++ quoteJSONString key ++ lit ": ") s with
  | Some r => readString r
  | None => None
  end.

Definition readEntry (s : jsstring) : option (entry * jsstring) :=
  match readMember (lit "{" ++ [nl] ++ lit "    ") (lit "role") s with
  | Some (r, s1) =>
    match readRole r,
          readMember (lit "," ++ [nl] ++ lit "    ") (lit "author") s1 with
    | Some ro, Some (a, s2) =>
      match readMember (lit "," ++ [nl] ++ lit "    ") (lit "timestamp") s2 with
      | Some (t, s3) =>
        match readMember (lit "," ++ [nl] ++ lit "    ") (lit "content") s3 with
        | Some (c, s4) =>
          match expect ([nl] ++ lit "  }") s4 with
          | Some s5 =>
              Some ({| entry_role := ro; author := a; timestamp := t;
                       content := c |}, s5)
          | None => None
          end
        | None => None
        end
      | None => None
      end
    | _, _ => None
    end
  | None => None
  end.

(** Entries separated by a comma, up to the closing bracket. *)
Fixpoint readEntries (fuel : nat) (s : jsstring) : option (list entry) :=
  match fuel with
  | 0%nat => None
  | Datatypes.S fuel' =>
      match readEntry s with
      | Some (e, r) =>
          if streq r ([nl] ++ lit "]") then Some [e]
          else
            match expect (lit "," ++ [nl] ++ lit "  ") r with
            | Some r' => option_map (cons e) (readEntries fuel' r')
            | None => None
            end
      | None => None
      end
  end.

Definition readHistory (s : jsstring) : option (list entry) :=
  if streq s (lit "[]") then Some []
  else
    match expect (lit "[" ++ [nl] ++ lit "  ") s with
    | Some r => readEntries (List.length s) r
    | None => None
    end.


Module SampleRuns.

Definition envWithoutMap : environment :=
  {| COMMENT_AUTHOR := Some (lit "alice");
     PROCESSING_COMMENT_ID := None;
     AI_SYSTEM_PROMPT_PATH := None;
     AI_SYSTEM_PROMPT := None;
     defaultPath := lit ".github/prompts/prompt.md";
     readFile := fun _ => None;
     modelMapFile := None |}.

(** An environment with a placeholder comment and a prompt file. *)
Definition envWithPlaceholder : environment :=
  {| COMMENT_AUTHOR := Some (lit "alice");
     PROCESSING_COMMENT_ID := Some (lit "4711");
     AI_SYSTEM_PROMPT_PATH := Some (lit "custom.md");
     AI_SYSTEM_PROMPT := Some (lit "from the variable");
     defaultPath := lit ".github/prompts/prompt.md";
     readFile := fun p => if streq p (lit ".github/prompts/prompt.md")
                          then Some (lit "from the default file") else None;
     modelMapFile := Some Sample.table2 |}.

End SampleRuns.

(** * Properties *)

Arguments lit : simpl never.

(** ** Runs of composed programs *)

Lemma calls_app (t u : list event) : calls (t ++ u) = calls t ++ calls u.
Proof. unfold calls. apply filter_app. Qed.

(** A sequence runs its first part, then the rest from the history that
    the first part leaves. *)
Lemma exec_bind {A B : Type} (w : world) (p : prog A) (f : A -> prog B) :
  forall h,
    exec w h (bind p f) =
    match exec w h p with
    | (Returned a, t) =>
        let (r, u) := exec w (h ++ calls t) (f a) in (r, t ++ u)
    | (Thrown e, t) => (Thrown e, t)
    end.
Proof.
  induction p as [a | e | o l k IH | X c k IH]; intro h; simpl.
  - rewrite app_nil_r. destruct (exec w h (f a)); reflexivity.
  - reflexivity.
  - rewrite IH. destruct (exec w h k) as [[a | e] t]; simpl.
    + destruct (exec w (h ++ calls t) (f a)); reflexivity.
    + reflexivity.
  - rewrite IH.
    destruct (exec w (h ++ [EvSettled c (w h X c)]) (k (w h X c)))
      as [[a | e] t]; simpl.
    + rewrite <- app_assoc. simpl.
      destruct (exec w (h ++ EvSettled c (w h X c) :: calls t) (f a));
        reflexivity.
    + reflexivity.
Qed.

(** A run never leaves a call pending: every event of [exec] is a log line
    or a settled call. *)
Lemma exec_no_pending {A : Type} (w : world) (p : prog A) :
  forall h X (c : api X), ~ In (EvPending c) (snd (exec w h p)).
Proof.
  induction p as [a | e | o l k IH | Y d k IH]; intros h X c; simpl.
  - tauto.
  - tauto.
  - specialize (IH h X c). destruct (exec w h k) as [r t]; simpl in *.
    intros [H | H]; [discriminate | tauto].
  - specialize (IH (w h Y d) (h ++ [EvSettled d (w h Y d)]) X c).
    destruct (exec w (h ++ [EvSettled d (w h Y d)]) (k (w h Y d))) as [r t].
    simpl in *. intros [H | H]; [discriminate | tauto].
Qed.

(** ** Strings *)

Lemma streq_refl (s : jsstring) : streq s s = true.
Proof.
  induction s as [| c s IH]; simpl; [reflexivity |].
  rewrite N.eqb_refl. exact IH.
Qed.

Lemma streq_eq (a b : jsstring) : streq a b = true <-> a = b.
Proof.
  split.
  - revert b. induction a as [| x a IH]; intros [| y b] H; simpl in H;
      try reflexivity; try discriminate.
    apply andb_true_iff in H. destruct H as [Hx Hab].
    apply N.eqb_eq in Hx. rewrite Hx, (IH b Hab). reflexivity.
  - intros ->. apply streq_refl.
Qed.

Lemma startsWith_app (p s : jsstring) : startsWith p (p ++ s) = true.
Proof.
  induction p as [| c p IH]; simpl; [reflexivity |].
  rewrite N.eqb_refl. exact IH.
Qed.

Lemma startsWith_inv (p s : jsstring) :
  startsWith p s = true -> exists r, s = p ++ r.
Proof.
  revert s. induction p as [| x p IH]; intros s H; simpl in H.
  - exists s. reflexivity.
  - destruct s as [| y s]; [discriminate |].
    apply andb_true_iff in H. destruct H as [Hx Hp].
    apply N.eqb_eq in Hx. subst y.
    destruct (IH s Hp) as [r ->]. exists r. reflexivity.
Qed.

Lemma includes_startsWith (p s : jsstring) :
  startsWith p s = true -> includes p s = true.
Proof. intro H. destruct s; simpl; rewrite H; reflexivity. Qed.

Lemma includes_app (p a b : jsstring) : includes p (a ++ p ++ b) = true.
Proof.
  induction a as [| c a IH]; simpl.
  - apply includes_startsWith, startsWith_app.
  - rewrite IH. apply orb_true_r.
Qed.

Lemma dropWhile_suffix (f : N -> bool) (s : jsstring) :
  exists a, s = a ++ dropWhile f s.
Proof.
  induction s as [| c s [a IH]]; simpl.
  - exists []. reflexivity.
  - destruct (f c).
    + exists (c :: a). simpl. rewrite <- IH. reflexivity.
    + exists []. reflexivity.
Qed.

(** Dropping a prefix stops at the latest at a character that fails the
    test: what follows that character is kept. *)
Lemma dropWhile_app_stop (f : N -> bool) (a : jsstring) (c : N) (r : jsstring) :
  f c = false -> exists x, dropWhile f (a ++ c :: r) = x ++ c :: r.
Proof.
  intro Hc. induction a as [| d a [x IH]]; simpl.
  - rewrite Hc. exists []. reflexivity.
  - destruct (f d).
    + exists x. exact IH.
    + exists (d :: a). reflexivity.
Qed.

Lemma endsClean_snoc (a : jsstring) (c : N) :
  endsClean (a ++ [c]) = negb (isWhiteSpace c).
Proof.
  induction a as [| d a IH]; simpl; [reflexivity |].
  destruct (a ++ [c]) eqn:E.
  - destruct a; discriminate.
  - exact IH.
Qed.

Lemma endsClean_dropWhileEnd (s : jsstring) :
  endsClean (dropWhileEnd isWhiteSpace s) = true.
Proof.
  unfold dropWhileEnd.
  assert (H : forall l, dropWhile isWhiteSpace l = [] \/
                 exists c r, dropWhile isWhiteSpace l = c :: r /\
                             isWhiteSpace c = false).
  { induction l as [| c l IH]; simpl; [left; reflexivity |].
    destruct (isWhiteSpace c) eqn:E; [exact IH |].
    right. exists c, l. split; [reflexivity | exact E]. }
  destruct (H (rev s)) as [-> | (c & r & -> & Hc)]; simpl; [reflexivity |].
  rewrite endsClean_snoc, Hc. reflexivity.
Qed.

Lemma endsClean_dropWhile (f : N -> bool) (s : jsstring) :
  endsClean s = true -> endsClean (dropWhile f s) = true.
Proof.
  induction s as [| c s IH]; intro H; simpl; [reflexivity |].
  destruct (f c); [| exact H].
  apply IH. simpl in H. destruct s; [reflexivity | exact H].
Qed.

(** A trimmed string is empty or ends with a character that is not
    whitespace. *)
Lemma endsClean_trim (s : jsstring) : endsClean (trim s) = true.
Proof.
  unfold trim, trimStart, trimEnd.
  apply endsClean_dropWhile, endsClean_dropWhileEnd.
Qed.

Lemma dropWhileEnd_snoc (f : N -> bool) (a : jsstring) (c : N) :
  f c = false -> dropWhileEnd f (a ++ [c]) = a ++ [c].
Proof.
  intro Hc. unfold dropWhileEnd. rewrite rev_app_distr. simpl. rewrite Hc.
  simpl. rewrite rev_involutive. reflexivity.
Qed.

Lemma endsClean_last (s : jsstring) :
  endsClean s = true -> s <> [] ->
  exists a c, s = a ++ [c] /\ isWhiteSpace c = false.
Proof.
  intros H Hs. destruct (exists_last Hs) as (a & c & ->).
  rewrite endsClean_snoc in H. exists a, c. split; [reflexivity |].
  destruct (isWhiteSpace c); [discriminate | reflexivity].
Qed.

(** A non-empty string whose last character is not whitespace does not
    trim to the empty string. *)
Lemma trim_nonempty (s : jsstring) :
  endsClean s = true -> s <> [] -> trim s <> [].
Proof.
  intros H Hs. destruct (endsClean_last s H Hs) as (a & c & -> & Hc).
  unfold trim, trimStart, trimEnd. rewrite (dropWhileEnd_snoc _ _ _ Hc).
  destruct (dropWhile_app_stop isWhiteSpace a c [] Hc) as [x ->].
  destruct x; discriminate.
Qed.

(** ** Command Parser *)

(** Behind the guard of [main] the command text is never empty: the
    trimmed comment starts with the marker and its space, and ends with a
    character that is not whitespace. *)
Lemma commandContent_nonempty (body : jsstring) :
  startsWith trigger (trim body) = true ->
  commandContentOf (trim body) <> [].
Proof.
  intro H. pose proof (endsClean_trim body) as Hc.
  destruct (startsWith_inv _ _ H) as [r Hr]. rewrite Hr in *.
  change (trigger ++ r) with (47 :: 97 :: 105 :: 32 :: r)%N in *.
  unfold commandContentOf, substring. simpl skipn.
  assert (Hne : r <> []) by (intros ->; discriminate Hc).
  apply trim_nonempty; [| exact Hne].
  simpl in Hc. destruct r; [contradiction Hne; reflexivity | exact Hc].
Qed.

(** Without a recognised alias the prompt is the command text itself, so
    behind the guard it is not empty: the usage help of [main] is reached
    only through a recognised alias that nothing follows. *)
Lemma default_prompt_nonempty (toLowerCase : jsstring -> jsstring)
    (modelMap : modelMapT) (body : jsstring) :
  startsWith trigger (trim body) = true ->
  explicit (parseCommand toLowerCase modelMap (commandContentOf (trim body)))
    = false ->
  prompt (parseCommand toLowerCase modelMap (commandContentOf (trim body)))
    <> [].
Proof.
  intros H. unfold parseCommand.
  destruct (truthy (getProp modelMap _)); simpl; [discriminate |].
  intros _. apply commandContent_nonempty, H.
Qed.

(** C1.  A comment whose trimmed text is the bare trigger [/ai] does not
    pass the guard of [main], which asks for [/ai] followed by a space: the
    run logs that it skips the comment and ends with status 0, having called
    neither the comment store nor the model endpoint.  No usage help is
    posted for it. *)
Theorem bare_trigger_is_skipped (toLowerCase : jsstring -> jsstring)
    (cfg : config) (env : environment) (w : world) :
  validContext cfg = true ->
  trim (commentBody cfg) = lit "/ai" ->
  toplevel toLowerCase cfg env w =
  {| trace := [EvLog stdout [T "Comment does not start with '/ai ', skipping."]];
     exitCode := 0 |}.
Proof.
  intros Hv H. unfold toplevel, main. rewrite Hv, H. reflexivity.
Qed.

Lemma bare_trigger_is_skipped_witness :
  validContext (Sample.repo (lit "/ai ")) = true /\
  trim (commentBody (Sample.repo (lit "/ai "))) = lit "/ai" /\
  toplevel asciiLower (Sample.repo (lit "/ai ")) (Sample.envOf Sample.table2)
    (Sample.serving Sample.issue1 [] (Fulfilled (Choices (lit "hi")))) =
  {| trace := [EvLog stdout [T "Comment does not start with '/ai ', skipping."]];
     exitCode := 0 |}.
Proof.
  split; [reflexivity |]. split; [reflexivity |].
  apply (bare_trigger_is_skipped asciiLower); reflexivity.
Defined.

Lemma exec_console_log (w : world) (h : list event) (l : list piece) :
  exec w h (console_log l) = (Returned tt, [EvLog stdout l]).
Proof. reflexivity. Qed.

(** When neither the token nor [default] gives a model, [main] creates the
    comment that lists the aliases; this is its only call, so the model
    endpoint is not called. *)
Lemma unknown_model_reported (toLowerCase : jsstring -> jsstring)
    (cfg : config) (env : environment) (w : world) (modelMap : modelMapT) :
  let crt := issues_createComment (repoOwner cfg) (repoName cfg)
               (issueNumber cfg) (unknownModelMessage modelMap) in
  startsWith trigger (trim (commentBody cfg)) = true ->
  modelMapFile env = Some modelMap ->
  truthy (modelIdentifier
            (parseCommand toLowerCase modelMap
               (commandContentOf (trim (commentBody cfg))))) = false ->
  calls (snd (exec w [] (main toLowerCase cfg env))) =
    [EvSettled crt (w [] _ crt)].
Proof.
  intros crt Hg Hm Hf. unfold main. rewrite Hg. simpl negb. cbv iota.
  rewrite exec_bind. unfold loadModelMap. rewrite Hm.
  cbn [exec]. cbv beta iota. rewrite exec_bind.
  destruct (explicit _); rewrite exec_console_log; cbv beta iota;
    rewrite Hf; simpl negb; cbv iota;
    unfold postCommentToIssue, await; simpl; fold crt;
    destruct (w [] unit crt); reflexivity.
Qed.

(** When the model is found and the prompt is empty, [main] creates the
    usage help, which lists the aliases; this is its only call, so the model
    endpoint is not called. *)
Lemma empty_prompt_usage_help (toLowerCase : jsstring -> jsstring)
    (cfg : config) (env : environment) (w : world) (modelMap : modelMapT) :
  let cmd := parseCommand toLowerCase modelMap
               (commandContentOf (trim (commentBody cfg))) in
  let crt := issues_createComment (repoOwner cfg) (repoName cfg)
               (issueNumber cfg) (usageMessage modelMap) in
  startsWith trigger (trim (commentBody cfg)) = true ->
  modelMapFile env = Some modelMap ->
  truthy (modelIdentifier cmd) = true ->
  prompt cmd = [] ->
  calls (snd (exec w [] (main toLowerCase cfg env))) =
    [EvSettled crt (w [] _ crt)].
Proof.
  intros cmd crt Hg Hm Ht Hp. unfold main. rewrite Hg. simpl negb. cbv iota.
  rewrite exec_bind. unfold loadModelMap. rewrite Hm.
  cbn [exec]. cbv beta iota. fold cmd. rewrite exec_bind.
  destruct (explicit cmd); rewrite exec_console_log; cbv beta iota;
    rewrite Ht, Hp; simpl negb; cbv iota;
    unfold postCommentToIssue, await; simpl; fold crt;
    destruct (w [] unit crt); reflexivity.
Qed.

(** The aliases listed by both messages: the keys of the table other than
    [default], each between backticks. *)
Lemma messages_list_aliases (modelMap : modelMapT) :
  exists a b,
    unknownModelMessage modelMap = a ++ availableAliases modelMap /\
    usageMessage modelMap = b ++ availableAliases modelMap.
Proof.
  unfold unknownModelMessage, usageMessage.
  eexists. eexists. split; repeat rewrite app_assoc; reflexivity.
Qed.

(** With any table, a token that is no key of the table but names a member
    that objects inherit is taken for an alias. *)
Lemma inherited_token_explicit (toLowerCase : jsstring -> jsstring)
    (modelMap : modelMapT) (text : jsstring) :
  let token := toLowerCase (hd [] (split_ws text)) in
  getOwn modelMap token = None -> inherited token = true ->
  explicit (parseCommand toLowerCase modelMap text) = true /\
  modelIdentifier (parseCommand toLowerCase modelMap text) = JInherited token.
Proof.
  intros token Hown Hinh.
  assert (Hp : getProp modelMap token = JInherited token)
    by (unfold getProp; rewrite Hown, Hinh; reflexivity).
  unfold parseCommand. fold token. rewrite Hp. simpl. split; reflexivity.
Qed.

(** C3.  The first token [constructor] is not a key of the alias table
    [{default: openai/gpt-4o}], yet reading the table at that name finds the
    member every object inherits, which is truthy: the token is taken for an
    alias, the prompt loses its first word, and the model endpoint is called
    with the inherited member in place of a model identifier. *)
Theorem inherited_name_taken_for_alias :
  getOwn Sample.table1 (lit "constructor") = None /\
  parseCommand asciiLower Sample.table1
    (commandContentOf (lit "/ai constructor injection tips")) =
  {| explicit := true;
     modelAlias := lit "constructor";
     modelIdentifier := JInherited (lit "constructor");
     prompt := lit "injection tips" |} /\
  backendRequests
    (trace (toplevel asciiLower
              (Sample.repo (lit "/ai constructor injection tips"))
              (Sample.envOf Sample.table1)
              (Sample.serving Sample.issue1 []
                 (Fulfilled (Choices (lit "hi")))))) =
  [(JInherited (lit "constructor"), lit "injection tips")].
Proof. repeat split; vm_compute; reflexivity. Qed.

(** ** Context Builder *)

(** The role of a comment: the trigger prefix of the trimmed text comes
    first, the hidden marker second. *)
Lemma classify_role (c : comment) :
  entry_role (classify c) =
  if startsWith trigger (trim (comment_body c)) then user_prompt
  else if includes marker (comment_body c) then assistant
  else user.
Proof.
  unfold classify.
  destruct (startsWith trigger (trim (comment_body c)));
    [| destruct (includes marker (comment_body c))]; reflexivity.
Qed.

(** Author and timestamp are copied. *)
Lemma classify_fields (c : comment) :
  author (classify c) = comment_user_login c /\
  timestamp (classify c) = comment_created_at c.
Proof. split; reflexivity. Qed.

(** A comment that is neither a prompt nor an answer keeps its full text. *)
Lemma classify_plain (c : comment) :
  entry_role (classify c) = user -> content (classify c) = comment_body c.
Proof.
  unfold classify.
  destruct (startsWith trigger (trim (comment_body c)));
    [| destruct (includes marker (comment_body c))]; simpl;
    intro H; try discriminate H; reflexivity.
Qed.

(** C2.  The comment [  /ai hello] (two leading spaces) is a user prompt,
    since its trimmed text starts with the trigger marker; its content is
    cut from the untrimmed body, [body.substring(4)], so it is [i hello] and
    not the text with the marker removed, [hello], which the same comment
    without the leading spaces yields. *)
Theorem prompt_content_cut_from_untrimmed_body :
  classify {| comment_body := lit "  /ai hello";
              comment_user_login := lit "alice";
              comment_created_at := lit "2025-01-02T00:00:00Z" |} =
  {| entry_role := user_prompt;
     author := lit "alice";
     timestamp := lit "2025-01-02T00:00:00Z";
     content := lit "i hello" |} /\
  classify {| comment_body := lit "/ai hello";
              comment_user_login := lit "alice";
              comment_created_at := lit "2025-01-02T00:00:00Z" |} =
  {| entry_role := user_prompt;
     author := lit "alice";
     timestamp := lit "2025-01-02T00:00:00Z";
     content := lit "hello" |}.
Proof. split; vm_compute; reflexivity. Qed.

(** [getIssueContext] returns as soon as both of its calls are fulfilled:
    the title, the body or its placeholder, and the serialized thread. *)
Lemma getIssueContext_returns (cfg : config) (w : world) (h : list event)
    (i : issue) (cs : list comment) :
  let get := issues_get (repoOwner cfg) (repoName cfg) (issueNumber cfg) in
  let list := issues_listComments (repoOwner cfg) (repoName cfg)
                (issueNumber cfg) in
  w h _ get = Fulfilled i ->
  w (h ++ [EvSettled get (Fulfilled i)]) _ list = Fulfilled cs ->
  fst (exec w h (getIssueContext cfg)) =
    Returned {| ctx_title := issue_title i;
                ctx_body := orElse (issue_body i) noDescription;
                ctx_comments := commentsText cs |} /\
  calls (snd (exec w h (getIssueContext cfg))) =
    [EvSettled get (Fulfilled i); EvSettled list (Fulfilled cs)].
Proof.
  intros get list Hget Hlist. unfold getIssueContext, await. simpl.
  fold get. rewrite Hget. simpl. fold list. rewrite Hlist. simpl.
  split; reflexivity.
Qed.

(** C4.  The serialized conversation history is a function of the fetched
    comment list alone: two invocations, whatever their configuration, their
    collaborators, their earlier calls and the issue they fetch, both return
    and carry the same string when the comment store lists the same
    comments. *)
Theorem conversation_history_deterministic
    (cfg1 cfg2 : config) (w1 w2 : world) (h1 h2 : list event)
    (i1 i2 : issue) (cs : list comment) :
  let get1 := issues_get (repoOwner cfg1) (repoName cfg1) (issueNumber cfg1) in
  let get2 := issues_get (repoOwner cfg2) (repoName cfg2) (issueNumber cfg2) in
  w1 h1 _ get1 = Fulfilled i1 ->
  w1 (h1 ++ [EvSettled get1 (Fulfilled i1)]) _
     (issues_listComments (repoOwner cfg1) (repoName cfg1) (issueNumber cfg1))
    = Fulfilled cs ->
  w2 h2 _ get2 = Fulfilled i2 ->
  w2 (h2 ++ [EvSettled get2 (Fulfilled i2)]) _
     (issues_listComments (repoOwner cfg2) (repoName cfg2) (issueNumber cfg2))
    = Fulfilled cs ->
  exists c1 c2,
    fst (exec w1 h1 (getIssueContext cfg1)) = Returned c1 /\
    fst (exec w2 h2 (getIssueContext cfg2)) = Returned c2 /\
    ctx_comments c1 = ctx_comments c2 /\
    ctx_comments c1 = commentsText cs.
Proof.
  intros get1 get2 Hg1 Hl1 Hg2 Hl2.
  destruct (getIssueContext_returns cfg1 w1 h1 i1 cs Hg1 Hl1) as [R1 _].
  destruct (getIssueContext_returns cfg2 w2 h2 i2 cs Hg2 Hl2) as [R2 _].
  eexists. eexists. split; [exact R1 |]. split; [exact R2 |].
  split; reflexivity.
Qed.

Lemma conversation_history_deterministic_witness :
  exists c1 c2,
    fst (exec (Sample.serving Sample.issue1 Sample.thread1
                 (Fulfilled (Choices (lit "hi")))) []
           (getIssueContext (Sample.repo (lit "/ai first")))) = Returned c1 /\
    fst (exec (Sample.serving Sample.issue2 Sample.thread1
                 (Rejected Sample.serverError))
           [EvLog stdout [T "later"]]
           (getIssueContext
              {| commentBody := lit "/ai second"; issueNumber := 9;
                 repoOwner := lit "octo"; repoName := lit "other" |}))
      = Returned c2 /\
    ctx_comments c1 = ctx_comments c2 /\
    ctx_comments c1 = commentsText Sample.thread1.
Proof.
  apply (conversation_history_deterministic
           (Sample.repo (lit "/ai first"))
           {| commentBody := lit "/ai second"; issueNumber := 9;
              repoOwner := lit "octo"; repoName := lit "other" |}
           (Sample.serving Sample.issue1 Sample.thread1
              (Fulfilled (Choices (lit "hi"))))
           (Sample.serving Sample.issue2 Sample.thread1
              (Rejected Sample.serverError))
           [] [EvLog stdout [T "later"]] Sample.issue1 Sample.issue2
           Sample.thread1); reflexivity.
Defined.

Lemma endsClean_app (a b : jsstring) :
  b <> [] -> endsClean (a ++ b) = endsClean b.
Proof.
  intro Hb. induction a as [| c a IH]; simpl; [reflexivity |].
  destruct (a ++ b) eqn:E; [| exact IH].
  destruct a; [contradiction | discriminate].
Qed.

Lemma trimEnd_clean (s : jsstring) : endsClean s = true -> trimEnd s = s.
Proof.
  intro H. destruct s as [| c s]; [reflexivity |].
  destruct (endsClean_last (c :: s) H) as (a & d & E & Hd); [discriminate |].
  rewrite E. apply dropWhileEnd_snoc, Hd.
Qed.

Lemma app_nonempty_r (a b : jsstring) : b <> [] -> a ++ b <> [].
Proof. intros Hb E. apply app_eq_nil in E. destruct E as [_ E]. exact (Hb E). Qed.

Ltac ends_with_literal :=
  repeat apply app_nonempty_r; vm_compute; discriminate.

(** The system message around its [Body:] line. *)
Lemma systemMessage_shape (systemPrompt : jsstring) (ctx : issueContextT) :
  exists p q,
    systemMessage systemPrompt ctx =
    (systemPrompt ++ [nl; nl]) ++ 45%N ::
      (p ++ (lit "Body: " ++ ctx_body ctx ++ [nl]) ++ q) /\
    endsClean (systemMessage systemPrompt ctx) = true.
Proof.
  exists (lit "-- Issue Context ---" ++ [nl] ++
          lit "Title: " ++ ctx_title ctx ++ [nl]).
  eexists. split.
  - unfold systemMessage. repeat rewrite <- app_assoc. reflexivity.
  - unfold systemMessage.
    repeat (rewrite endsClean_app; [| ends_with_literal]).
    reflexivity.
Qed.

(** The trimmed system message still holds the [Body:] line of the
    context. *)
Lemma systemMessage_body (systemPrompt : jsstring) (ctx : issueContextT) :
  includes (lit "Body: " ++ ctx_body ctx ++ [nl])
    (trim (systemMessage systemPrompt ctx)) = true.
Proof.
  destruct (systemMessage_shape systemPrompt ctx) as (p & q & E & Hc).
  unfold trim. rewrite (trimEnd_clean _ Hc), E. unfold trimStart.
  destruct (dropWhile_app_stop isWhiteSpace (systemPrompt ++ [nl; nl]) 45%N
              (p ++ (lit "Body: " ++ ctx_body ctx ++ [nl]) ++ q) eq_refl)
    as [x ->].
  change (x ++ 45%N :: p ++ (lit "Body: " ++ ctx_body ctx ++ [nl]) ++ q)
    with (x ++ [45%N] ++ p ++ (lit "Body: " ++ ctx_body ctx ++ [nl]) ++ q).
  rewrite (app_assoc [45%N] p), (app_assoc x ([45%N] ++ p)).
  apply includes_app.
Qed.

(** C9.  When the fetched issue has no body, or an empty one, the context
    that [getIssueContext] returns carries the placeholder text as its body,
    and the system message sent to the model holds the line
    [Body: This issue has no description.]. *)
Theorem missing_body_placeholder (cfg : config) (w : world) (h : list event)
    (i : issue) (cs : list comment) :
  let get := issues_get (repoOwner cfg) (repoName cfg) (issueNumber cfg) in
  issue_body i = None \/ issue_body i = Some [] ->
  w h _ get = Fulfilled i ->
  w (h ++ [EvSettled get (Fulfilled i)]) _
    (issues_listComments (repoOwner cfg) (repoName cfg) (issueNumber cfg))
    = Fulfilled cs ->
  exists ctx,
    fst (exec w h (getIssueContext cfg)) = Returned ctx /\
    ctx_body ctx = lit "This issue has no description." /\
    forall systemPrompt,
      includes (lit "Body: This issue has no description." ++ [nl])
        (trim (systemMessage systemPrompt ctx)) = true.
Proof.
  intros get Hb Hget Hlist.
  destruct (getIssueContext_returns cfg w h i cs Hget Hlist) as [R _].
  assert (Hbody : orElse (issue_body i) noDescription = noDescription)
    by (destruct Hb as [-> | ->]; reflexivity).
  rewrite Hbody in R.
  eexists. split; [exact R |]. split; [reflexivity |].
  intro systemPrompt.
  exact (systemMessage_body systemPrompt
           {| ctx_title := issue_title i;
              ctx_body := noDescription;
              ctx_comments := commentsText cs |}).
Qed.

Lemma missing_body_placeholder_witness :
  exists ctx,
    fst (exec (Sample.serving Sample.issue1 Sample.thread1
                 (Fulfilled (Choices (lit "hi")))) []
           (getIssueContext (Sample.repo (lit "/ai hello")))) = Returned ctx /\
    ctx_body ctx = lit "This issue has no description." /\
    forall systemPrompt,
      includes (lit "Body: This issue has no description." ++ [nl])
        (trim (systemMessage systemPrompt ctx)) = true.
Proof.
  apply (missing_body_placeholder (Sample.repo (lit "/ai hello"))
           (Sample.serving Sample.issue1 Sample.thread1
              (Fulfilled (Choices (lit "hi"))))
           [] Sample.issue1 Sample.thread1).
  - left. reflexivity.
  - reflexivity.
  - reflexivity.
Defined.

(** ** Comment Publisher *)

(** C5.  With a placeholder id, [postCommentToIssue] first updates that
    comment: when the update is fulfilled this is its only call, and no
    comment is created; when the update is rejected, whatever the error, it
    creates a new comment with the same body and ends as that call ends.
    Without a placeholder id its only call creates the comment. *)
Theorem publish_update_or_create (cfg : config) (w : world) (h : list event)
    (body : jsstring) (id : Z) :
  id <> 0%Z ->
  let upd := issues_updateComment (repoOwner cfg) (repoName cfg) id body in
  let crt := issues_createComment (repoOwner cfg) (repoName cfg)
               (issueNumber cfg) body in
  let ending (a : settled unit) :=
    match a with
    | Fulfilled _ => Returned tt
    | Rejected e => Thrown e
    end in
  let run := exec w h (postCommentToIssue cfg body (Some (Num id))) in
  (w h _ upd = Fulfilled tt ->
     fst run = Returned tt /\
     calls (snd run) = [EvSettled upd (Fulfilled tt)]) /\
  (forall e, w h _ upd = Rejected e ->
     let a := w (h ++ [EvSettled upd (Rejected e)]) _ crt in
     fst run = ending a /\
     calls (snd run) = [EvSettled upd (Rejected e); EvSettled crt a]) /\
  (forall none, truthyId none = None ->
     let a := w h _ crt in
     fst (exec w h (postCommentToIssue cfg body none)) = ending a /\
     calls (snd (exec w h (postCommentToIssue cfg body none)))
       = [EvSettled crt a]).
Proof.
  intros Hid upd crt ending run.
  assert (Ht : truthyId (Some (Num id)) = Some id).
  { simpl. destruct (Z.eqb_spec id 0); [contradiction | reflexivity]. }
  split; [| split].
  - intro H. subst run. unfold postCommentToIssue, await. rewrite Ht. simpl.
    fold upd. rewrite H. simpl. split; reflexivity.
  - intros e H a. subst run. unfold postCommentToIssue, await. rewrite Ht.
    simpl. fold upd. rewrite H. simpl. fold crt. fold a.
    destruct a; simpl; split; reflexivity.
  - intros none Hn a. unfold postCommentToIssue, await. rewrite Hn. simpl.
    fold crt. fold a. destruct a; simpl; split; reflexivity.
Qed.

Lemma publish_update_or_create_witness :
  calls (snd (exec (Sample.serving Sample.issue1 []
                      (Fulfilled (Choices (lit "hi")))) []
                (postCommentToIssue (Sample.repo (lit "/ai hello"))
                   (lit "answer") (Some (Num 42))))) =
    [EvSettled (issues_updateComment (lit "octo") (lit "demo") 42
                  (lit "answer")) (Fulfilled tt)] /\
  calls (snd (exec (Sample.updateFails Sample.serverError) []
                (postCommentToIssue (Sample.repo (lit "/ai hello"))
                   (lit "answer") (Some (Num 42))))) =
    [EvSettled (issues_updateComment (lit "octo") (lit "demo") 42
                  (lit "answer")) (Rejected Sample.serverError);
     EvSettled (issues_createComment (lit "octo") (lit "demo") 7
                  (lit "answer")) (Fulfilled tt)].
Proof.
  assert (H42 : 42%Z <> 0%Z) by discriminate.
  split.
  - destruct (publish_update_or_create (Sample.repo (lit "/ai hello"))
                (Sample.serving Sample.issue1 []
                   (Fulfilled (Choices (lit "hi")))) [] (lit "answer") 42%Z H42)
      as [Hok _].
    exact (proj2 (Hok eq_refl)).
  - destruct (publish_update_or_create (Sample.repo (lit "/ai hello"))
                (Sample.updateFails Sample.serverError) [] (lit "answer")
                42%Z H42)
      as [_ [Hfail _]].
    exact (proj2 (Hfail Sample.serverError eq_refl)).
Defined.

(** ** Response Generator and the top-level handler *)

(** An error response of the model endpoint makes [getAiResponse] throw an
    error that carries the backend's message, after this one call. *)
Lemma getAiResponse_unexpected (w : world) (h : list event)
    (prompt : jsstring) (ctx : issueContextT) (systemPrompt : jsstring)
    (model : jsval) (msg : jsstring) :
  let chat := chat_completions (trim (systemMessage systemPrompt ctx))
                prompt model in
  w h _ chat = Fulfilled (Unexpected msg) ->
  exec w h (getAiResponse prompt ctx systemPrompt model) =
  (Thrown (newError (lit "AI API call failed: " ++ msg)),
   [EvSettled chat (Fulfilled (Unexpected msg));
    EvLog stderr [T "Azure AI API Error:"; S msg]]).
Proof.
  intros chat H. unfold getAiResponse, await. simpl. fold chat. rewrite H.
  reflexivity.
Qed.

(** The handler never sees a comment of its own written: its call of
    [postCommentToIssue] is cut at the first await. *)
Lemma fatalHandler_posted (cfg : config) (err : error) :
  posted (fatalHandler cfg err) = [].
Proof.
  unfold fatalHandler. destruct (is404 err); reflexivity.
Qed.

(** C6.  The trigger [/ai what is this repo for?] with the alias table
    [{default: openai/gpt-4o}] and a backend that answers with the error
    message [rate limited]: the generation call is made once and fails with
    an error carrying that message, which reaches the top-level handler; the
    handler starts the caution comment, whose text holds [rate limited], and
    exits with status 1 while the create call is still pending, so the run
    ends without any comment created or updated. *)
Theorem rate_limited_comment_left_pending :
  let cfg := Sample.repo (lit "/ai what is this repo for?") in
  let env := Sample.envOf Sample.table1 in
  let w := Sample.serving Sample.issue1 []
             (Fulfilled (Unexpected (lit "rate limited"))) in
  let err := newError (lit "AI API call failed: rate limited") in
  fst (exec w [] (main asciiLower cfg env)) = Thrown err /\
  backendRequests (trace (toplevel asciiLower cfg env w)) =
    [(JString (lit "openai/gpt-4o"), lit "what is this repo for?")] /\
  includes (lit "rate limited") (cautionMessage err) = true /\
  postAttempts (trace (toplevel asciiLower cfg env w)) =
    [EvPending (issues_createComment (lit "octo") (lit "demo") 7
                  (cautionMessage err))] /\
  posted (trace (toplevel asciiLower cfg env w)) = [] /\
  exitCode (toplevel asciiLower cfg env w) = 1%Z.
Proof. repeat split; vm_compute; reflexivity. Qed.

(** C7, as stated, fails where the comment store answers with status 404:
    the run of [main] ends in that error and the handler makes no attempt
    to post a comment. *)
Lemma not_found_failure_attempts_no_comment :
  ~ attemptsErrorComment asciiLower (Sample.repo (lit "/ai hello"))
      (Sample.envOf Sample.table1) (Sample.failing Sample.notFound).
Proof.
  intro H.
  apply (H Sample.notFound
           (snd (exec (Sample.failing Sample.notFound) []
                   (main asciiLower (Sample.repo (lit "/ai hello"))
                      (Sample.envOf Sample.table1))))).
  - vm_compute. reflexivity.
  - vm_compute. reflexivity.
Qed.

(** C7, amended.  When the run of [main] ends in an exception, the process
    exits with status 1 after the handler's events.  For an error whose
    status is not 404 the handler makes exactly one call, the creation of
    the caution comment with the error's message, and never repeats it.  For
    an error of status 404 the handler makes no call at all. *)
Theorem fatal_handler_policy (toLowerCase : jsstring -> jsstring)
    (cfg : config) (env : environment) (w : world) (err : error)
    (t : list event) :
  validContext cfg = true ->
  exec w [] (main toLowerCase cfg env) = (Thrown err, t) ->
  exitCode (toplevel toLowerCase cfg env w) = 1%Z /\
  trace (toplevel toLowerCase cfg env w) = t ++ fatalHandler cfg err /\
  (is404 err = false ->
     calls (fatalHandler cfg err) =
     [EvPending (issues_createComment (repoOwner cfg) (repoName cfg)
                   (issueNumber cfg) (cautionMessage err))]) /\
  (is404 err = true -> calls (fatalHandler cfg err) = []).
Proof.
  intros Hv H. unfold toplevel. rewrite Hv, H. simpl.
  split; [reflexivity |]. split; [reflexivity |].
  unfold fatalHandler. split; intros ->; reflexivity.
Qed.

Lemma fatal_handler_policy_witness :
  let cfg := Sample.repo (lit "/ai hello") in
  let env := Sample.envOf Sample.table1 in
  let w := Sample.serving Sample.issue1 []
             (Fulfilled (Unexpected (lit "busy"))) in
  let err := newError (lit "AI API call failed: busy") in
  exitCode (toplevel asciiLower cfg env w) = 1%Z /\
  calls (fatalHandler cfg err) =
    [EvPending (issues_createComment (lit "octo") (lit "demo") 7
                  (cautionMessage err))].
Proof.
  intros cfg env w err.
  assert (Hv : validContext cfg = true) by reflexivity.
  assert (Hrun : exec w [] (main asciiLower cfg env) =
                 (Thrown err, snd (exec w [] (main asciiLower cfg env))))
    by (vm_compute; reflexivity).
  destruct (fatal_handler_policy asciiLower cfg env w err _ Hv Hrun)
    as (Hexit & _ & Hpost & _).
  split; [exact Hexit | exact (Hpost eq_refl)].
Defined.

(** ** Tokens of the command text *)

Lemma splitWs_nonnil (b : bool) (s : jsstring) : splitWs b s <> [].
Proof.
  revert b. induction s as [| c s IH]; intro b; simpl; [discriminate |].
  destruct (isWhiteSpace c).
  - destruct b; [apply IH | discriminate].
  - destruct (splitWs false s); discriminate.
Qed.

(** No piece of a split holds whitespace. *)
Lemma splitWs_no_whitespace (b : bool) (s : jsstring) :
  Forall (fun t => forallb (fun c => negb (isWhiteSpace c)) t = true)
    (splitWs b s).
Proof.
  revert b. induction s as [| c s IH]; intro b; simpl.
  - repeat constructor.
  - destruct (isWhiteSpace c) eqn:Hc.
    + destruct b; [apply IH |]. constructor; [reflexivity | apply IH].
    + specialize (IH false). destruct (splitWs false s) as [| t ts].
      * repeat constructor. simpl. rewrite Hc. reflexivity.
      * inversion IH as [| ? ? Ht Hts]; subst.
        constructor; [| exact Hts]. simpl. rewrite Hc. exact Ht.
Qed.

(** In a text that does not end with whitespace, only the first piece of a
    split can be empty. *)
Lemma splitWs_nonempty_pieces (s : jsstring) :
  endsClean s = true ->
  (s <> [] -> Forall (fun t => t <> []) (splitWs true s)) /\
  Forall (fun t => t <> []) (tl (splitWs false s)).
Proof.
  induction s as [| c s IH]; intro Hc.
  - split; [intro H; contradiction H; reflexivity | constructor].
  - destruct s as [| d s'].
    + simpl in Hc. apply negb_true_iff in Hc. simpl. rewrite Hc.
      split; [intros _ |]; repeat constructor. discriminate.
    + assert (Hs : endsClean (d :: s') = true) by exact Hc.
      destruct (IH Hs) as [IH1 IH2].
      assert (Hne : d :: s' <> []) by discriminate.
      specialize (IH1 Hne).
      remember (d :: s') as s eqn:Es.
      simpl. destruct (isWhiteSpace c).
      * split; [intros _ |]; exact IH1.
      * destruct (splitWs false s) as [| t ts] eqn:E.
        -- exfalso. exact (splitWs_nonnil false s E).
        -- simpl in IH2. split; [intros _; constructor;
                                   [discriminate | exact IH2] | exact IH2].
Qed.

(** The pieces after the first one, for a trimmed text, are tokens. *)
Lemma rest_of_split_clean (text : jsstring) :
  endsClean text = true -> Forall cleanToken (tl (split_ws text)).
Proof.
  intro Hc. unfold split_ws.
  destruct (splitWs_nonempty_pieces text Hc) as [_ Hne].
  pose proof (splitWs_no_whitespace false text) as Hws.
  destruct (splitWs false text) as [| t ts]; [constructor |].
  simpl in *. inversion Hws as [| ? ? _ Hts]; subst. clear Hws.
  induction ts as [| u ts IH]; [constructor |].
  inversion Hne; subst. inversion Hts; subst.
  constructor; [split; assumption | apply IH; assumption].
Qed.

Lemma wellSpaced_token (b : bool) (t r : jsstring) :
  cleanToken t -> wellSpaced b (t ++ r) = wellSpaced true r.
Proof.
  intros [Hne Hws]. revert b. induction t as [| c t IH]; intro b.
  - contradiction Hne. reflexivity.
  - simpl in Hws. apply andb_true_iff in Hws. destruct Hws as [Hc Ht].
    apply negb_true_iff in Hc. simpl. rewrite Hc.
    destruct t as [| d t']; [reflexivity |].
    apply IH; [discriminate | exact Ht].
Qed.

(** Tokens joined by one space each are single-spaced. *)
Lemma wellSpaced_join (toks : list jsstring) :
  toks <> [] -> Forall cleanToken toks ->
  wellSpaced false (join (lit " ") toks) = true.
Proof.
  induction toks as [| t toks IH]; intros Hne H.
  - contradiction Hne. reflexivity.
  - inversion H as [| ? ? Ht Htoks]; subst.
    destruct toks as [| u toks'].
    + simpl. rewrite <- (app_nil_r t).
      rewrite (wellSpaced_token false t [] Ht). reflexivity.
    + change (join (lit " ") (t :: u :: toks'))
        with (t ++ space :: join (lit " ") (u :: toks')).
      rewrite (wellSpaced_token false t _ Ht).
      change (wellSpaced true (space :: join (lit " ") (u :: toks')))
        with (wellSpaced false (join (lit " ") (u :: toks'))).
      apply IH; [discriminate | exact Htoks].
Qed.

Lemma singleSpaced_join (toks : list jsstring) :
  Forall cleanToken toks -> singleSpaced (join (lit " ") toks) = true.
Proof.
  intro H. destruct toks as [| t toks]; [reflexivity |].
  pose proof (wellSpaced_join (t :: toks)) as W.
  unfold singleSpaced. destruct (join (lit " ") (t :: toks));
    [reflexivity | apply W; [discriminate | exact H]].
Qed.

(** ** Command Parser: alias and prompt *)

(** C8, as stated, fails on [/ai GPT explain   this] with the aliases
    [gpt], [claude] and [default]: the first token matches the alias [gpt]
    without regard to case, but modelAlias is the lower-cased [gpt], not the
    token [GPT], and the prompt is [explain this], not the remainder
    [explain   this] of the text.  It also fails on [/ai gpt hi] where the
    table writes the alias as [GPT], and where the table gives [gpt] an empty
    identifier: the token matches a known alias, and the code takes the
    whole text [gpt hi] for the prompt of the default model. *)
Lemma stated_grammar_differs :
  let text := commandContentOf (lit "/ai GPT explain   this") in
  let cmd := parseCommand asciiLower Sample.table2 text in
  let text' := commandContentOf (lit "/ai gpt hi") in
  let cmd3 := parseCommand asciiLower Sample.table3 text' in
  let cmd4 := parseCommand asciiLower Sample.table4 text' in
  (Stated.parse asciiLower Sample.table2 text
     = (lit "GPT", lit "explain   this") /\
   (modelAlias cmd, prompt cmd) = (lit "gpt", lit "explain this") /\
   (modelAlias cmd, prompt cmd)
     <> Stated.parse asciiLower Sample.table2 text) /\
  (Stated.parse asciiLower Sample.table3 text' = (lit "gpt", lit "hi") /\
   (modelAlias cmd3, prompt cmd3) = (lit "default", lit "gpt hi")) /\
  (Stated.parse asciiLower Sample.table4 text' = (lit "gpt", lit "hi") /\
   (modelAlias cmd4, prompt cmd4) = (lit "default", lit "gpt hi")).
Proof.
  repeat split; try (vm_compute; reflexivity).
  vm_compute. discriminate.
Qed.

(** C8, amended.  The first token is lower-cased and looked up as it is.
    When it is a key of the table with a non-empty identifier, the
    lower-cased token is modelAlias, that identifier is the model, and the
    prompt is the remaining tokens joined by single spaces.  When it is a key
    with an empty identifier, or neither a key nor a name that objects
    inherit, modelAlias is [default], the model is the table's [default]
    entry and the prompt is the whole trimmed text after the marker. *)
Theorem alias_detection (toLowerCase : jsstring -> jsstring)
    (modelMap : modelMapT) (commentText : jsstring) :
  let text := commandContentOf commentText in
  let token := toLowerCase (hd [] (split_ws text)) in
  let cmd := parseCommand toLowerCase modelMap text in
  (forall identifier,
     getOwn modelMap token = Some identifier -> identifier <> [] ->
     explicit cmd = true /\
     modelAlias cmd = token /\
     modelIdentifier cmd = JString identifier /\
     prompt cmd = join (lit " ") (tl (split_ws text))) /\
  (getOwn modelMap token = Some [] \/
   (getOwn modelMap token = None /\ inherited token = false) ->
     explicit cmd = false /\
     modelAlias cmd = lit "default" /\
     modelIdentifier cmd = getProp modelMap (lit "default") /\
     prompt cmd = text).
Proof.
  intros text token cmd. subst cmd. unfold parseCommand. fold token.
  split.
  - intros identifier Hown Hne.
    assert (Hp : getProp modelMap token = JString identifier)
      by (unfold getProp; rewrite Hown; reflexivity).
    rewrite Hp. destruct identifier; [contradiction Hne; reflexivity |].
    simpl. repeat split; reflexivity.
  - intro H.
    assert (Hf : truthy (getProp modelMap token) = false).
    { unfold getProp. destruct H as [Hown | [Hown Hinh]]; rewrite Hown;
        [| rewrite Hinh]; reflexivity. }
    rewrite Hf. simpl. repeat split; reflexivity.
Qed.

Lemma alias_detection_witness :
  (let cmd := parseCommand asciiLower Sample.table2
                (commandContentOf (lit "/ai claude explain this error")) in
   modelAlias cmd = lit "claude" /\
   modelIdentifier cmd = JString (lit "anthropic/claude-3.5-sonnet") /\
   prompt cmd = lit "explain this error") /\
  (let cmd := parseCommand asciiLower Sample.table1
                (commandContentOf (lit "/ai what is this repo for?")) in
   modelAlias cmd = lit "default" /\
   modelIdentifier cmd = JString (lit "openai/gpt-4o") /\
   prompt cmd = lit "what is this repo for?").
Proof.
  split.
  - destruct (alias_detection asciiLower Sample.table2
                (lit "/ai claude explain this error")) as [H _].
    destruct (H (lit "anthropic/claude-3.5-sonnet") eq_refl) as (_ & A & I & P).
    + discriminate.
    + exact (conj A (conj I P)).
  - destruct (alias_detection asciiLower Sample.table1
                (lit "/ai what is this repo for?")) as [_ H].
    destruct H as (_ & A & I & P).
    + right. split; reflexivity.
    + exact (conj A (conj I P)).
Defined.

(** C10.  For a command with a recognised alias the prompt is the
    remaining tokens of the whitespace split joined by single spaces, so it
    is single-spaced: every whitespace character in it is one U+0020 between
    two characters that are not whitespace.  For a command without one the
    prompt is the command text as it stands. *)
Theorem prompt_whitespace (toLowerCase : jsstring -> jsstring)
    (modelMap : modelMapT) (commentText : jsstring) :
  let text := commandContentOf commentText in
  let cmd := parseCommand toLowerCase modelMap text in
  (explicit cmd = true ->
     prompt cmd = join (lit " ") (tl (split_ws text)) /\
     Forall cleanToken (tl (split_ws text)) /\
     singleSpaced (prompt cmd) = true) /\
  (explicit cmd = false -> prompt cmd = text).
Proof.
  intros text cmd. subst cmd. unfold parseCommand.
  assert (Hc : Forall cleanToken (tl (split_ws text)))
    by (apply rest_of_split_clean, endsClean_trim).
  destruct (truthy (getProp modelMap _)); simpl; split; intro H;
    try discriminate H.
  - split; [reflexivity |]. split; [exact Hc |].
    apply singleSpaced_join, Hc.
  - reflexivity.
Qed.

Lemma prompt_whitespace_witness :
  prompt (parseCommand asciiLower Sample.table2
            (commandContentOf
               (lit "/ai gpt explain   this" ++ [nl; nl] ++ lit "error")))
    = lit "explain this error" /\
  prompt (parseCommand asciiLower Sample.table2
            (commandContentOf
               (lit "/ai explain   this" ++ [nl; nl] ++ lit "error")))
    = lit "explain   this" ++ [nl; nl] ++ lit "error".
Proof.
  split.
  - destruct (prompt_whitespace asciiLower Sample.table2
                (lit "/ai gpt explain   this" ++ [nl; nl] ++ lit "error"))
      as [H _].
    destruct (H eq_refl) as [P _]. rewrite P. reflexivity.
  - destruct (prompt_whitespace asciiLower Sample.table2
                (lit "/ai explain   this" ++ [nl; nl] ++ lit "error"))
      as [_ H].
    rewrite (H eq_refl). reflexivity.
Defined.

(** * Further properties of the script *)

(** ** Runs without console lines *)

Lemma posted_calls (t : list event) : posted (calls t) = posted t.
Proof.
  unfold posted, calls. induction t as [| e t IH]; simpl; [reflexivity |].
  destruct e; simpl; rewrite IH; reflexivity.
Qed.

Lemma backendRequests_calls (t : list event) :
  backendRequests (calls t) = backendRequests t.
Proof.
  unfold backendRequests, calls. induction t as [| e t IH]; simpl;
    [reflexivity |].
  destruct e; simpl; rewrite IH; reflexivity.
Qed.

Lemma postAttempts_calls (t : list event) :
  postAttempts (calls t) = postAttempts t.
Proof.
  unfold postAttempts, calls. induction t as [| e t IH]; simpl;
    [reflexivity |].
  destruct e; simpl; try rewrite IH; try reflexivity;
    destruct (match c with issues_updateComment _ _ _ _ => true | issues_createComment _ _ _ _ => true | _ => false end);
    rewrite IH; reflexivity.
Qed.

(** The calls of a sequence: those of its first part, then those of the
    rest, run from the history that the first part leaves. *)
Lemma run_bind {A B : Type} (w : world) (h : list event) (p : prog A)
    (f : A -> prog B) :
  run w h (bind p f) =
  match run w h p with
  | (Returned a, c) => let (r, d) := run w (h ++ c) (f a) in (r, c ++ d)
  | (Thrown e, c) => (Thrown e, c)
  end.
Proof.
  unfold run. rewrite exec_bind.
  destruct (exec w h p) as [[a | e] t]; simpl; [| reflexivity].
  destruct (exec w (h ++ calls t) (f a)) as [r u]; simpl.
  rewrite calls_app. reflexivity.
Qed.

Lemma run_ret {A : Type} (w : world) (h : list event) (a : A) :
  run w h (Ret a) = (Returned a, []).
Proof. reflexivity. Qed.

Lemma run_throw {A : Type} (w : world) (h : list event) (e : error) :
  run w h (@Throw A e) = (Thrown e, []).
Proof. reflexivity. Qed.

Lemma run_console_log (w : world) (h : list event) (l : list piece) :
  run w h (console_log l) = (Returned tt, []).
Proof. reflexivity. Qed.

Lemma run_console_error (w : world) (h : list event) (l : list piece) :
  run w h (console_error l) = (Returned tt, []).
Proof. reflexivity. Qed.

Lemma run_await {X : Type} (w : world) (h : list event) (c : api X) :
  run w h (await c) =
  (match w h _ c with Fulfilled x => Returned x | Rejected e => Thrown e end,
   [EvSettled c (w h _ c)]).
Proof. unfold run, await. simpl. destruct (w h X c); reflexivity. Qed.

Lemma run_getSystemPrompt (env : environment) :
  exists p, forall w h, run w h (getSystemPrompt env) = (Returned p, []).
Proof.
  unfold getSystemPrompt.
  destruct (present (AI_SYSTEM_PROMPT_PATH env)) as [path |];
    [destruct (readFile env path) as [text |] |]; simpl;
    try (eexists; intros; reflexivity);
    (destruct (readFile env (defaultPath env));
       [| destruct (present (AI_SYSTEM_PROMPT env))];
       eexists; intros; reflexivity).
Qed.

(** When its first write is fulfilled, [postCommentToIssue] makes no other
    call. *)
Lemma run_postCommentToIssue (cfg : config) (w : world) (h : list event)
    (body : jsstring) (pid : option jsnum) :
  w h _ (firstWrite cfg body pid) = Fulfilled tt ->
  run w h (postCommentToIssue cfg body pid) =
  (Returned tt, [EvSettled (firstWrite cfg body pid) (Fulfilled tt)]).
Proof.
  unfold firstWrite, run, postCommentToIssue, await.
  destruct (truthyId pid) as [id |]; simpl; intro H; rewrite H; reflexivity.
Qed.

Ltac run_step :=
  rewrite run_bind;
  first [ rewrite run_console_log | rewrite run_console_error
        | rewrite run_ret | rewrite run_throw | rewrite run_await ];
  cbv beta iota; rewrite ?app_nil_r; cbn [app].

(** [getIssueContext] stops at the first of its two calls that is rejected. *)
Lemma run_getIssueContext (cfg : config) (w : world) (h : list event) :
  let get := issues_get (repoOwner cfg) (repoName cfg) (issueNumber cfg) in
  let list := issues_listComments (repoOwner cfg) (repoName cfg)
                (issueNumber cfg) in
  run w h (getIssueContext cfg) =
  match w h _ get with
  | Rejected e => (Thrown e, [EvSettled get (Rejected e)])
  | Fulfilled i =>
      match w (h ++ [EvSettled get (Fulfilled i)]) _ list with
      | Rejected e =>
          (Thrown e, [EvSettled get (Fulfilled i); EvSettled list (Rejected e)])
      | Fulfilled cs =>
          (Returned {| ctx_title := issue_title i;
                       ctx_body := orElse (issue_body i) noDescription;
                       ctx_comments := commentsText cs |},
           [EvSettled get (Fulfilled i); EvSettled list (Fulfilled cs)])
      end
  end.
Proof.
  intros get list. unfold run, getIssueContext, await. simpl. fold get.
  destruct (w h issue get) as [i | e]; simpl; [| reflexivity].
  fold list.
  destruct (w (h ++ [EvSettled get (Fulfilled i)]) _ list); reflexivity.
Qed.

(** [getAiResponse] makes one call; an error response and a rejection both
    end it with an exception. *)
Lemma run_getAiResponse (w : world) (h : list event) (prompt : jsstring)
    (ctx : issueContextT) (sp : jsstring) (model : jsval) :
  let chat := chat_completions (trim (systemMessage sp ctx)) prompt model in
  run w h (getAiResponse prompt ctx sp model) =
  (match w h _ chat with
   | Fulfilled (Choices content) => Returned content
   | Fulfilled (Unexpected msg) =>
       Thrown (newError (lit "AI API call failed: " ++ msg))
   | Rejected e => Thrown e
   end, [EvSettled chat (w h _ chat)]).
Proof.
  intro chat. unfold run, getAiResponse, await. simpl. fold chat.
  destruct (w h chatResponse chat) as [[msg | content] | e]; reflexivity.
Qed.

(** Behind the guard, with a model and a prompt, [main] fetches the context,
    asks the model and publishes the answer, and stops at the first of these
    that fails. *)
Lemma main_generation (toLowerCase : jsstring -> jsstring)
    (cfg : config) (env : environment) (modelMap : modelMapT) :
  let cmd := parseCommand toLowerCase modelMap
               (commandContentOf (trim (commentBody cfg))) in
  startsWith trigger (trim (commentBody cfg)) = true ->
  modelMapFile env = Some modelMap ->
  truthy (modelIdentifier cmd) = true ->
  prompt cmd <> [] ->
  exists sp, forall w,
    run w [] (main toLowerCase cfg env) =
    match run w [] (getIssueContext cfg) with
    | (Thrown e, c) => (Thrown e, c)
    | (Returned ctx, c) =>
        match run w c (getAiResponse (prompt cmd) ctx sp (modelIdentifier cmd)) with
        | (Thrown e, d) => (Thrown e, c ++ d)
        | (Returned aiResponse, d) =>
            let (r, f) :=
              run w (c ++ d)
                (postCommentToIssue cfg
                   (responseWithTag (orElse (COMMENT_AUTHOR env) (lit "User"))
                      aiResponse)
                   (processingCommentIdOf (PROCESSING_COMMENT_ID env))) in
            (r, c ++ d ++ f)
        end
    end.
Proof.
  intros cmd Hg Hm Ht Hp.
  assert (Hp' : truthyStr (prompt cmd) = true)
    by (destruct (prompt cmd); [contradiction Hp; reflexivity | reflexivity]).
  destruct (run_getSystemPrompt env) as [sp Hsp]. exists sp. intro w.
  subst cmd. unfold main. rewrite Hg. simpl negb. cbv iota.
  rewrite run_bind. unfold loadModelMap. rewrite Hm, run_ret.
  cbv beta iota. cbn [app]. rewrite run_bind.
  match goal with
  | |- context [explicit ?c] => destruct (explicit c)
  end; rewrite run_console_log; cbv beta iota; cbn [app];
    rewrite Ht, Hp'; simpl negb; cbv iota;
    run_step; rewrite run_bind, Hsp; cbv beta iota; cbn [app];
    rewrite run_bind;
    (destruct (run w [] (getIssueContext cfg)) as [[ctx | e] c];
       [| reflexivity]);
    rewrite run_bind; cbn [app];
    (destruct (run w c (getAiResponse _ ctx sp _)) as [[ai | e] d'];
       [| reflexivity]);
    repeat run_step;
    destruct (run w (c ++ d') (postCommentToIssue cfg _ _)) as [r f];
    reflexivity.
Qed.

(** The end of the process, from the result and the calls of [main]. *)
Lemma toplevel_of_run (toLowerCase : jsstring -> jsstring) (cfg : config)
    (env : environment) (w : world) (r : result unit) (c : list event) :
  validContext cfg = true ->
  run w [] (main toLowerCase cfg env) = (r, c) ->
  exitCode (toplevel toLowerCase cfg env w)
    = match r with Returned _ => 0%Z | Thrown _ => 1%Z end /\
  calls (trace (toplevel toLowerCase cfg env w))
    = c ++ match r with
           | Returned _ => []
           | Thrown e => calls (fatalHandler cfg e)
           end.
Proof.
  intros Hv H. unfold toplevel. rewrite Hv. unfold run in H.
  destruct (exec w [] (main toLowerCase cfg env)) as [[u | e] t];
    simpl in H; inversion H; subst; simpl.
  - rewrite app_nil_r. split; reflexivity.
  - rewrite calls_app. split; reflexivity.
Qed.

(** The calls of the handler. *)
Lemma calls_fatalHandler (cfg : config) (e : error) :
  calls (fatalHandler cfg e) =
  if is404 e then []
  else [EvPending (issues_createComment (repoOwner cfg) (repoName cfg)
                     (issueNumber cfg) (cautionMessage e))].
Proof. unfold fatalHandler. destruct (is404 e); reflexivity. Qed.

(** With no model, or with a model and no prompt, [main] does what its one
    call of [postCommentToIssue] does. *)
Lemma main_prefix (toLowerCase : jsstring -> jsstring)
    (cfg : config) (env : environment) (w : world) (modelMap : modelMapT) :
  let cmd := parseCommand toLowerCase modelMap
               (commandContentOf (trim (commentBody cfg))) in
  startsWith trigger (trim (commentBody cfg)) = true ->
  modelMapFile env = Some modelMap ->
  (truthy (modelIdentifier cmd) = false ->
   run w [] (main toLowerCase cfg env) =
   run w [] (postCommentToIssue cfg (unknownModelMessage modelMap) None)) /\
  (truthy (modelIdentifier cmd) = true -> prompt cmd = [] ->
   run w [] (main toLowerCase cfg env) =
   run w [] (postCommentToIssue cfg (usageMessage modelMap) None)).
Proof.
  intros cmd Hg Hm. subst cmd. split.
  - intro Hf. unfold main. rewrite Hg. simpl negb. cbv iota.
    rewrite run_bind. unfold loadModelMap. rewrite Hm, run_ret.
    cbv beta iota. cbn [app]. rewrite run_bind.
    match goal with
    | |- context [explicit ?c] => destruct (explicit c)
    end; rewrite run_console_log; cbv beta iota; cbn [app];
      rewrite Hf; simpl negb; cbv iota;
      destruct (run w [] (postCommentToIssue cfg _ None)); reflexivity.
  - intros Ht Hp. unfold main. rewrite Hg. simpl negb. cbv iota.
    rewrite run_bind. unfold loadModelMap. rewrite Hm, run_ret.
    cbv beta iota. cbn [app]. rewrite run_bind.
    match goal with
    | |- context [explicit ?c] => destruct (explicit c)
    end; rewrite run_console_log; cbv beta iota; cbn [app];
      rewrite Ht, Hp; simpl negb; cbv iota; rewrite run_bind;
      destruct (run w [] (postCommentToIssue cfg _ None)) as [[u | e] c];
      try reflexivity; rewrite run_console_log; rewrite app_nil_r;
      destruct u; reflexivity.
Qed.

(** The caution comment holds the end of the error's message. *)
Lemma includes_caution (err : error) (msg a : jsstring) :
  message err = a ++ msg -> includes msg (cautionMessage err) = true.
Proof.
  intro H. unfold cautionMessage. rewrite H.
  repeat rewrite app_assoc. rewrite <- (app_assoc _ msg).
  apply includes_app.
Qed.


(** ** The pipeline end to end *)

(** X1.  Unless the context of the workflow is complete and the trimmed
    comment starts with the trigger marker, the script calls neither the
    comment store nor the model endpoint: an incomplete context ends the
    process with status 1, any other comment is skipped with status 0. *)
Theorem nothing_without_trigger (toLowerCase : jsstring -> jsstring)
    (cfg : config) (env : environment) (w : world) :
  validContext cfg = false \/
  startsWith trigger (trim (commentBody cfg)) = false ->
  calls (trace (toplevel toLowerCase cfg env w)) = [] /\
  exitCode (toplevel toLowerCase cfg env w)
    = (if validContext cfg then 0 else 1)%Z.
Proof.
  intro H. unfold toplevel.
  destruct (validContext cfg); [| split; reflexivity].
  destruct H as [H | H]; [discriminate |].
  unfold main. rewrite H. split; reflexivity.
Qed.

Lemma nothing_without_trigger_witness :
  calls (trace (toplevel asciiLower (Sample.repo (lit "thanks, /ai was right"))
                  (Sample.envOf Sample.table2)
                  (Sample.serving Sample.issue1 Sample.thread1
                     (Fulfilled (Choices (lit "hi")))))) = [] /\
  exitCode (toplevel asciiLower (Sample.repo (lit "thanks, /ai was right"))
              (Sample.envOf Sample.table2)
              (Sample.serving Sample.issue1 Sample.thread1
                 (Fulfilled (Choices (lit "hi"))))) = 0%Z.
Proof.
  apply (nothing_without_trigger asciiLower
           (Sample.repo (lit "thanks, /ai was right"))).
  right. reflexivity.
Defined.

(** X2.  When [model-map.json] is missing, a trigger comment makes [main]
    fail with the error of [loadModelMap] before any call; the handler then
    starts the caution comment for that error and the process exits with
    status 1. *)
Theorem missing_model_map (toLowerCase : jsstring -> jsstring)
    (cfg : config) (env : environment) (w : world) :
  let err := newError
    (lit "CRITICAL: model-map.json not found in the action directory.") in
  validContext cfg = true ->
  startsWith trigger (trim (commentBody cfg)) = true ->
  modelMapFile env = None ->
  fst (exec w [] (main toLowerCase cfg env)) = Thrown err /\
  calls (trace (toplevel toLowerCase cfg env w)) =
    [EvPending (issues_createComment (repoOwner cfg) (repoName cfg)
                  (issueNumber cfg) (cautionMessage err))] /\
  exitCode (toplevel toLowerCase cfg env w) = 1%Z.
Proof.
  intros err Hv Hg Hm.
  assert (Hrun : exec w [] (main toLowerCase cfg env) = (Thrown err, [])).
  { unfold main. rewrite Hg. simpl negb. cbv iota. rewrite exec_bind.
    unfold loadModelMap. rewrite Hm. reflexivity. }
  unfold toplevel. rewrite Hv, Hrun. repeat split; reflexivity.
Qed.

Lemma missing_model_map_witness :
  calls (trace (toplevel asciiLower (Sample.repo (lit "/ai hello"))
                  SampleRuns.envWithoutMap
                  (Sample.serving Sample.issue1 []
                     (Fulfilled (Choices (lit "hi")))))) =
    [EvPending (issues_createComment (lit "octo") (lit "demo") 7
                  (cautionMessage (newError
                     (lit "CRITICAL: model-map.json not found in the action directory."))))].
Proof.
  refine (proj1 (proj2 (missing_model_map asciiLower
            (Sample.repo (lit "/ai hello")) SampleRuns.envWithoutMap
            (Sample.serving Sample.issue1 []
               (Fulfilled (Choices (lit "hi")))) _ _ _))); reflexivity.
Defined.

(** X3.  When neither the first token nor [default] gives a model, the
    script posts the comment that asks for a model and lists the aliases,
    does not call the model endpoint, and ends with status 0. *)
Theorem unknown_model_comment (toLowerCase : jsstring -> jsstring)
    (cfg : config) (env : environment) (w : world) (modelMap : modelMapT) :
  let cmd := parseCommand toLowerCase modelMap
               (commandContentOf (trim (commentBody cfg))) in
  validContext cfg = true ->
  startsWith trigger (trim (commentBody cfg)) = true ->
  modelMapFile env = Some modelMap ->
  truthy (modelIdentifier cmd) = false ->
  w [] _ (issues_createComment (repoOwner cfg) (repoName cfg)
            (issueNumber cfg) (unknownModelMessage modelMap)) = Fulfilled tt ->
  posted (trace (toplevel toLowerCase cfg env w))
    = [unknownModelMessage modelMap] /\
  backendRequests (trace (toplevel toLowerCase cfg env w)) = [] /\
  exitCode (toplevel toLowerCase cfg env w) = 0%Z.
Proof.
  intros cmd Hv Hg Hm Hf Hw.
  destruct (main_prefix toLowerCase cfg env w modelMap Hg Hm) as [H _].
  specialize (H Hf).
  rewrite (run_postCommentToIssue cfg w [] _ None Hw) in H.
  destruct (toplevel_of_run toLowerCase cfg env w _ _ Hv H) as [Hexit Hcalls].
  rewrite <- backendRequests_calls, <- posted_calls, Hcalls.
  repeat split; try reflexivity. exact Hexit.
Qed.

Lemma unknown_model_comment_witness :
  posted (trace (toplevel asciiLower (Sample.repo (lit "/ai hello"))
                   (Sample.envOf [(lit "gpt", lit "openai/gpt-4o")])
                   (Sample.serving Sample.issue1 []
                      (Fulfilled (Choices (lit "hi"))))))
    = [unknownModelMessage [(lit "gpt", lit "openai/gpt-4o")]] /\
  backendRequests
    (trace (toplevel asciiLower (Sample.repo (lit "/ai hello"))
              (Sample.envOf [(lit "gpt", lit "openai/gpt-4o")])
              (Sample.serving Sample.issue1 []
                 (Fulfilled (Choices (lit "hi")))))) = [] /\
  exitCode (toplevel asciiLower (Sample.repo (lit "/ai hello"))
              (Sample.envOf [(lit "gpt", lit "openai/gpt-4o")])
              (Sample.serving Sample.issue1 []
                 (Fulfilled (Choices (lit "hi"))))) = 0%Z.
Proof.
  apply (unknown_model_comment asciiLower (Sample.repo (lit "/ai hello"))
           (Sample.envOf [(lit "gpt", lit "openai/gpt-4o")])
           (Sample.serving Sample.issue1 []
              (Fulfilled (Choices (lit "hi"))))
           [(lit "gpt", lit "openai/gpt-4o")]); reflexivity.
Defined.

(** X4.  When the model is found and the prompt is empty, the command
    named an alias and nothing more: the script posts the usage help with
    the list of aliases, does not call the model endpoint, and ends with
    status 0. *)
Theorem usage_help_comment (toLowerCase : jsstring -> jsstring)
    (cfg : config) (env : environment) (w : world) (modelMap : modelMapT) :
  let cmd := parseCommand toLowerCase modelMap
               (commandContentOf (trim (commentBody cfg))) in
  validContext cfg = true ->
  startsWith trigger (trim (commentBody cfg)) = true ->
  modelMapFile env = Some modelMap ->
  truthy (modelIdentifier cmd) = true ->
  prompt cmd = [] ->
  w [] _ (issues_createComment (repoOwner cfg) (repoName cfg)
            (issueNumber cfg) (usageMessage modelMap)) = Fulfilled tt ->
  explicit cmd = true /\
  posted (trace (toplevel toLowerCase cfg env w)) = [usageMessage modelMap] /\
  backendRequests (trace (toplevel toLowerCase cfg env w)) = [] /\
  exitCode (toplevel toLowerCase cfg env w) = 0%Z.
Proof.
  intros cmd Hv Hg Hm Ht Hp Hw.
  split.
  { destruct (explicit cmd) eqn:E; [reflexivity |]. exfalso.
    exact (default_prompt_nonempty toLowerCase modelMap _ Hg E Hp). }
  destruct (main_prefix toLowerCase cfg env w modelMap Hg Hm) as [_ H].
  specialize (H Ht Hp).
  rewrite (run_postCommentToIssue cfg w [] _ None Hw) in H.
  destruct (toplevel_of_run toLowerCase cfg env w _ _ Hv H) as [Hexit Hcalls].
  rewrite <- backendRequests_calls, <- posted_calls, Hcalls.
  repeat split; try reflexivity. exact Hexit.
Qed.

Lemma usage_help_comment_witness :
  posted (trace (toplevel asciiLower (Sample.repo (lit "/ai Claude"))
                   (Sample.envOf Sample.table2)
                   (Sample.serving Sample.issue1 []
                      (Fulfilled (Choices (lit "hi"))))))
    = [usageMessage Sample.table2].
Proof.
  refine (proj1 (proj2 (usage_help_comment asciiLower
            (Sample.repo (lit "/ai Claude")) (Sample.envOf Sample.table2)
            (Sample.serving Sample.issue1 []
               (Fulfilled (Choices (lit "hi"))))
            Sample.table2 _ _ _ _ _ _))); reflexivity.
Defined.

(** X5.  [getSystemPrompt] makes no call and returns the first of: the
    file at the custom path, when the variable is set and the file exists;
    the default prompt file; the variable AI_SYSTEM_PROMPT when it is not
    empty; the built-in text. *)
Theorem system_prompt_precedence (env : environment) (w : world)
    (h : list event) :
  let custom := match present (AI_SYSTEM_PROMPT_PATH env) with
                | Some path => readFile env path
                | None => None
                end in
  let result := fst (exec w h (getSystemPrompt env)) in
  calls (snd (exec w h (getSystemPrompt env))) = [] /\
  (forall text, custom = Some text -> result = Returned text) /\
  (custom = None ->
   (forall text, readFile env (defaultPath env) = Some text ->
      result = Returned text) /\
   (readFile env (defaultPath env) = None ->
    (forall text, present (AI_SYSTEM_PROMPT env) = Some text ->
       result = Returned text) /\
    (present (AI_SYSTEM_PROMPT env) = None ->
       result = Returned defaultPrompt))).
Proof.
  intros custom result. subst custom result. unfold getSystemPrompt.
  destruct (present (AI_SYSTEM_PROMPT_PATH env)) as [path |];
    [destruct (readFile env path) as [text |] |]; simpl.
  - split; [reflexivity |]. split; [| discriminate].
    intros t E. inversion E. reflexivity.
  - destruct (readFile env (defaultPath env)) as [d |];
      [| destruct (present (AI_SYSTEM_PROMPT env)) as [p |]]; simpl;
      (split; [reflexivity |]); (split; [discriminate |]); intros _;
      (split; [intros t E; inversion E; reflexivity || discriminate E |]);
      try discriminate;
      intros _; (split; [intros t E; inversion E; reflexivity || discriminate E |]);
      try discriminate; reflexivity.
  - destruct (readFile env (defaultPath env)) as [d |];
      [| destruct (present (AI_SYSTEM_PROMPT env)) as [p |]]; simpl;
      (split; [reflexivity |]); (split; [discriminate |]); intros _;
      (split; [intros t E; inversion E; reflexivity || discriminate E |]);
      try discriminate;
      intros _; (split; [intros t E; inversion E; reflexivity || discriminate E |]);
      try discriminate; reflexivity.
Qed.

Lemma system_prompt_precedence_witness :
  fst (exec (Sample.failing Sample.notFound) []
         (getSystemPrompt SampleRuns.envWithPlaceholder))
    = Returned (lit "from the default file").
Proof.
  destruct (system_prompt_precedence SampleRuns.envWithPlaceholder
              (Sample.failing Sample.notFound) []) as (_ & _ & H).
  destruct (H eq_refl) as [Hdefault _].
  exact (Hdefault (lit "from the default file") eq_refl).
Defined.

(** X6.  When the issue or its comments cannot be fetched, [main] fails
    with that error: the model endpoint is not called and no comment is
    written; the handler starts the caution comment unless the status is
    404, and the process exits with status 1. *)
Theorem context_failure_stops_generation (toLowerCase : jsstring -> jsstring)
    (cfg : config) (env : environment) (w : world) (modelMap : modelMapT)
    (e : error) :
  let cmd := parseCommand toLowerCase modelMap
               (commandContentOf (trim (commentBody cfg))) in
  let get := issues_get (repoOwner cfg) (repoName cfg) (issueNumber cfg) in
  let listing := issues_listComments (repoOwner cfg) (repoName cfg)
                   (issueNumber cfg) in
  validContext cfg = true ->
  startsWith trigger (trim (commentBody cfg)) = true ->
  modelMapFile env = Some modelMap ->
  truthy (modelIdentifier cmd) = true ->
  prompt cmd <> [] ->
  w [] _ get = Rejected e \/
  (exists i, w [] _ get = Fulfilled i /\
             w [EvSettled get (Fulfilled i)] _ listing = Rejected e) ->
  fst (exec w [] (main toLowerCase cfg env)) = Thrown e /\
  backendRequests (trace (toplevel toLowerCase cfg env w)) = [] /\
  posted (trace (toplevel toLowerCase cfg env w)) = [] /\
  postAttempts (trace (toplevel toLowerCase cfg env w)) =
    (if is404 e then []
     else [EvPending (issues_createComment (repoOwner cfg) (repoName cfg)
                        (issueNumber cfg) (cautionMessage e))]) /\
  exitCode (toplevel toLowerCase cfg env w) = 1%Z.
Proof.
  intros cmd get listing Hv Hg Hm Ht Hp Hfail.
  destruct (main_generation toLowerCase cfg env modelMap Hg Hm Ht Hp)
    as [sp Hmain].
  specialize (Hmain w). rewrite run_getIssueContext in Hmain.
  subst cmd get listing. cbv beta in *.
  assert (exists c, run w [] (main toLowerCase cfg env) = (Thrown e, c) /\
                    backendRequests c = [] /\ posted c = [] /\
                    postAttempts c = []) as (c & Hrun & Hb & Hpo & Hpa).
  { destruct Hfail as [Hget | (i & Hget & Hlist)]; rewrite Hget in Hmain;
      cbn [app] in Hmain; [| rewrite Hlist in Hmain];
      eexists; (split; [exact Hmain |]); repeat split; reflexivity. }
  split; [unfold run in Hrun; inversion Hrun; reflexivity |].
  destruct (toplevel_of_run toLowerCase cfg env w _ _ Hv Hrun) as [Hexit Hcalls].
  rewrite <- backendRequests_calls, <- postAttempts_calls, <- posted_calls,
    Hcalls, calls_fatalHandler.
  unfold backendRequests, posted, postAttempts in *.
  rewrite !flat_map_app, filter_app, Hb, Hpo, Hpa.
  destruct (is404 e); repeat split; try reflexivity; exact Hexit.
Qed.

Lemma context_failure_stops_generation_witness :
  backendRequests
    (trace (toplevel asciiLower (Sample.repo (lit "/ai hello"))
              (Sample.envOf Sample.table1)
              (Sample.failing Sample.serverError))) = [] /\
  postAttempts
    (trace (toplevel asciiLower (Sample.repo (lit "/ai hello"))
              (Sample.envOf Sample.table1)
              (Sample.failing Sample.serverError))) =
    [EvPending (issues_createComment (lit "octo") (lit "demo") 7
                  (cautionMessage Sample.serverError))].
Proof.
  destruct (context_failure_stops_generation asciiLower
              (Sample.repo (lit "/ai hello")) (Sample.envOf Sample.table1)
              (Sample.failing Sample.serverError) Sample.table1
              Sample.serverError)
    as (_ & Hb & _ & Hp & _); try reflexivity.
  - discriminate.
  - left. reflexivity.
  - split; [exact Hb | exact Hp].
Defined.

(** X7.  When the model endpoint answers with an error response, [main]
    fails, after this one request, with an error that carries the backend's
    message; the handler starts a caution comment that holds the message,
    and the process exits with status 1 without a comment written. *)
Theorem generation_failure_reported (toLowerCase : jsstring -> jsstring)
    (cfg : config) (env : environment) (w : world) (modelMap : modelMapT)
    (i : issue) (cs : list comment) (msg : jsstring) :
  let cmd := parseCommand toLowerCase modelMap
               (commandContentOf (trim (commentBody cfg))) in
  let get := issues_get (repoOwner cfg) (repoName cfg) (issueNumber cfg) in
  let listing := issues_listComments (repoOwner cfg) (repoName cfg)
                   (issueNumber cfg) in
  let err := newError (lit "AI API call failed: " ++ msg) in
  validContext cfg = true ->
  startsWith trigger (trim (commentBody cfg)) = true ->
  modelMapFile env = Some modelMap ->
  truthy (modelIdentifier cmd) = true ->
  prompt cmd <> [] ->
  w [] _ get = Fulfilled i ->
  w [EvSettled get (Fulfilled i)] _ listing = Fulfilled cs ->
  (forall sys,
     w [EvSettled get (Fulfilled i); EvSettled listing (Fulfilled cs)] _
       (chat_completions sys (prompt cmd) (modelIdentifier cmd))
     = Fulfilled (Unexpected msg)) ->
  fst (exec w [] (main toLowerCase cfg env)) = Thrown err /\
  backendRequests (trace (toplevel toLowerCase cfg env w))
    = [(modelIdentifier cmd, prompt cmd)] /\
  postAttempts (trace (toplevel toLowerCase cfg env w)) =
    [EvPending (issues_createComment (repoOwner cfg) (repoName cfg)
                  (issueNumber cfg) (cautionMessage err))] /\
  includes msg (cautionMessage err) = true /\
  posted (trace (toplevel toLowerCase cfg env w)) = [] /\
  exitCode (toplevel toLowerCase cfg env w) = 1%Z.
Proof.
  intros cmd get listing err Hv Hg Hm Ht Hp Hget Hlist Hchat.
  destruct (main_generation toLowerCase cfg env modelMap Hg Hm Ht Hp)
    as [sp Hmain].
  specialize (Hmain w). rewrite run_getIssueContext in Hmain.
  subst cmd get listing. cbv beta in *.
  rewrite Hget in Hmain. cbn [app] in Hmain.
  rewrite Hlist in Hmain. rewrite run_getAiResponse in Hmain.
  rewrite Hchat in Hmain. cbn [app] in Hmain. fold err in Hmain.
  split; [unfold run in Hmain; inversion Hmain; reflexivity |].
  destruct (toplevel_of_run toLowerCase cfg env w _ _ Hv Hmain)
    as [Hexit Hcalls].
  rewrite <- backendRequests_calls, <- postAttempts_calls, <- posted_calls,
    Hcalls, calls_fatalHandler.
  repeat split; try reflexivity; try exact Hexit.
  apply (includes_caution err msg (lit "AI API call failed: ")). reflexivity.
Qed.

Lemma generation_failure_reported_witness :
  backendRequests
    (trace (toplevel asciiLower (Sample.repo (lit "/ai gpt why?"))
              (Sample.envOf Sample.table2)
              (Sample.serving Sample.issue2 Sample.thread1
                 (Fulfilled (Unexpected (lit "quota exceeded"))))))
    = [(JString (lit "openai/gpt-4o"), lit "why?")] /\
  includes (lit "quota exceeded")
    (cautionMessage (newError (lit "AI API call failed: quota exceeded")))
    = true.
Proof.
  destruct (generation_failure_reported asciiLower
              (Sample.repo (lit "/ai gpt why?")) (Sample.envOf Sample.table2)
              (Sample.serving Sample.issue2 Sample.thread1
                 (Fulfilled (Unexpected (lit "quota exceeded"))))
              Sample.table2 Sample.issue2 Sample.thread1
              (lit "quota exceeded"))
    as (_ & Hb & _ & Hi & _); try reflexivity.
  - discriminate.
  - split; [exact Hb | exact Hi].
Defined.







(** ** Trimming and the thread's own comments *)

Lemma dropWhile_app_all (f : N -> bool) (a b : jsstring) :
  forallb f a = true -> dropWhile f (a ++ b) = dropWhile f b.
Proof.
  induction a as [| c a IH]; simpl; [reflexivity |].
  intro H. apply andb_true_iff in H. destruct H as [Hc Ha].
  rewrite Hc. apply IH, Ha.
Qed.

Lemma dropWhile_app_some (f : N -> bool) (a b : jsstring) :
  forallb f a = false -> dropWhile f (a ++ b) = dropWhile f a ++ b.
Proof.
  induction a as [| c a IH]; simpl; [discriminate |].
  destruct (f c); simpl; [exact IH | reflexivity].
Qed.

Lemma dropWhile_all (f : N -> bool) (a : jsstring) :
  forallb f a = true -> dropWhile f a = [].
Proof.
  intro H. rewrite <- (app_nil_r a). rewrite (dropWhile_app_all f a [] H).
  reflexivity.
Qed.

Lemma forallb_rev (f : N -> bool) (a : jsstring) :
  forallb f (rev a) = forallb f a.
Proof.
  induction a as [| c a IH]; simpl; [reflexivity |].
  rewrite forallb_app, IH. simpl. rewrite andb_true_r. apply andb_comm.
Qed.

Lemma dropWhileEnd_app_all (f : N -> bool) (a b : jsstring) :
  forallb f b = true -> dropWhileEnd f (a ++ b) = dropWhileEnd f a.
Proof.
  intro H. unfold dropWhileEnd. rewrite rev_app_distr.
  rewrite dropWhile_app_all; [reflexivity |]. rewrite forallb_rev. exact H.
Qed.

Lemma dropWhileEnd_app_some (f : N -> bool) (a b : jsstring) :
  forallb f b = false -> dropWhileEnd f (a ++ b) = a ++ dropWhileEnd f b.
Proof.
  intro H. unfold dropWhileEnd. rewrite rev_app_distr.
  rewrite dropWhile_app_some by (rewrite forallb_rev; exact H).
  rewrite rev_app_distr, rev_involutive. reflexivity.
Qed.

Lemma dropWhileEnd_all (f : N -> bool) (a : jsstring) :
  forallb f a = true -> dropWhileEnd f a = [].
Proof.
  intro H. unfold dropWhileEnd. rewrite dropWhile_all; [reflexivity |].
  rewrite forallb_rev. exact H.
Qed.

Lemma dropWhile_weaken (f g : N -> bool) (l : jsstring) :
  (forall c, g c = true -> f c = true) ->
  dropWhile f (dropWhile g l) = dropWhile f l.
Proof.
  intro H. induction l as [| c l IH]; simpl; [reflexivity |].
  destruct (g c) eqn:G.
  - rewrite (H c G). exact IH.
  - reflexivity.
Qed.

Lemma dropWhile_idem (f : N -> bool) (l : jsstring) :
  dropWhile f (dropWhile f l) = dropWhile f l.
Proof. apply dropWhile_weaken. auto. Qed.

Lemma dropWhile_split (f : N -> bool) (s : jsstring) :
  forallb f s = false ->
  exists a c r, s = a ++ c :: r /\ forallb f a = true /\ f c = false.
Proof.
  induction s as [| c s IH]; simpl; [discriminate |].
  destruct (f c) eqn:E; simpl.
  - intro H. destruct (IH H) as (a & d & r & -> & Ha & Hd).
    exists (c :: a), d, r. simpl. rewrite E, Ha. auto.
  - intros _. exists [], c, s. auto.
Qed.

Lemma dropWhileEnd_cons_keep (f : N -> bool) (c : N) (r : jsstring) :
  f c = false -> dropWhileEnd f (c :: r) = c :: dropWhileEnd f r.
Proof.
  intro Hc. change (c :: r) with ([c] ++ r).
  destruct (forallb f r) eqn:E.
  - rewrite (dropWhileEnd_app_all f [c] r E), (dropWhileEnd_all f r E).
    unfold dropWhileEnd. simpl. rewrite Hc. reflexivity.
  - rewrite (dropWhileEnd_app_some f [c] r E). reflexivity.
Qed.

(** Trimming the two ends in either order gives the same string. *)
Lemma trimStart_trimEnd (s : jsstring) :
  trimStart (trimEnd s) = trimEnd (trimStart s).
Proof.
  unfold trimStart, trimEnd.
  destruct (forallb isWhiteSpace s) eqn:E.
  - rewrite (dropWhileEnd_all _ _ E), (dropWhile_all _ _ E). reflexivity.
  - destruct (dropWhile_split _ _ E) as (a & c & r & -> & Ha & Hc).
    rewrite (dropWhile_app_all _ a (c :: r) Ha). simpl dropWhile at 2.
    rewrite Hc.
    rewrite dropWhileEnd_app_some by (simpl; rewrite Hc; reflexivity).
    rewrite (dropWhile_app_all _ a _ Ha).
    rewrite (dropWhileEnd_cons_keep _ _ _ Hc). simpl. rewrite Hc.
    reflexivity.
Qed.

Lemma trimEnd_idem (s : jsstring) : trimEnd (trimEnd s) = trimEnd s.
Proof.
  unfold trimEnd, dropWhileEnd. rewrite rev_involutive, dropWhile_idem.
  reflexivity.
Qed.

Lemma trim_all_white (s : jsstring) :
  forallb isWhiteSpace s = true -> trim s = [].
Proof.
  intro H. unfold trim, trimEnd. rewrite (dropWhileEnd_all _ _ H).
  reflexivity.
Qed.

Lemma skipn_length_app (a b : jsstring) : skipn (List.length a) (a ++ b) = b.
Proof. induction a as [| c a IH]; simpl; [reflexivity | exact IH]. Qed.

Lemma endsWith_app (p a : jsstring) : endsWith p (a ++ p) = true.
Proof. unfold endsWith. rewrite rev_app_distr. apply startsWith_app. Qed.

(** The marker is taken off the end of a text, with the newlines before
    it. *)
Lemma stripMarker_at_end (x : jsstring) :
  stripMarker (x ++ marker) = dropWhileEnd (N.eqb nl) x.
Proof.
  unfold stripMarker.
  assert (Hc : endsClean (x ++ marker) = true)
    by (rewrite endsClean_app; [reflexivity | vm_compute; discriminate]).
  rewrite (trimEnd_clean _ Hc), endsWith_app.
  rewrite rev_app_distr, <- (length_rev marker), skipn_length_app.
  rewrite rev_involutive. reflexivity.
Qed.

Lemma trim_drop_newlines (t : jsstring) :
  trim (dropWhileEnd (N.eqb nl) t) = trim t.
Proof.
  unfold trim. f_equal. unfold trimEnd, dropWhileEnd.
  rewrite rev_involutive. f_equal. apply dropWhile_weaken.
  intros c H. apply N.eqb_eq in H. subst c. reflexivity.
Qed.

Lemma trim_trimStart (s : jsstring) : trim (trimStart s) = trim s.
Proof.
  unfold trim. rewrite <- trimStart_trimEnd. unfold trimStart.
  apply dropWhile_idem.
Qed.

(** X9.  A comment that the script published, the mention of an author
    whose name is made of word characters and dashes, the answer and the
    hidden marker, is classified on a later run as an assistant entry whose
    content is the trimmed answer. *)
Theorem published_answer_round_trip (author response login created : jsstring) :
  author <> [] ->
  forallb mentionChar author = true ->
  classify {| comment_body := responseWithTag author response;
              comment_user_login := login;
              comment_created_at := created |} =
  {| entry_role := assistant;
     author := login;
     timestamp := created;
     content := trim response |}.
Proof.
  intros Hne Hname. unfold classify. simpl comment_body.
  assert (Hbody : responseWithTag author response =
                  64%N :: author ++ nl :: nl :: response ++ (nl :: nl :: marker))
    by reflexivity.
  assert (Htrim : trim (responseWithTag author response)
                  = responseWithTag author response).
  { unfold trim. rewrite trimEnd_clean.
    - rewrite Hbody. reflexivity.
    - unfold responseWithTag.
      repeat (rewrite endsClean_app; [| ends_with_literal]). reflexivity. }
  rewrite Htrim.
  assert (Hp : startsWith trigger (responseWithTag author response) = false)
    by (rewrite Hbody; reflexivity).
  rewrite Hp.
  assert (Hi : includes marker (responseWithTag author response) = true).
  { unfold responseWithTag. rewrite <- (app_nil_r marker) at 2.
    rewrite !app_assoc. rewrite <- (app_assoc _ marker []).
    apply includes_app. }
  rewrite Hi. cbv iota.
  cbn [fst snd comment_user_login comment_created_at comment_body]. f_equal.
  (* the mention *)
  assert (Hm : stripMention (responseWithTag author response) =
               dropWhile isWhiteSpace (response ++ (nl :: nl :: marker))).
  { rewrite Hbody. destruct author as [| d a]; [contradiction Hne; reflexivity |].
    simpl in Hname. apply andb_true_iff in Hname. destruct Hname as [Hd Ha].
    unfold stripMention. simpl app. cbv iota. 
    change (N.eqb 64 64) with true. cbv iota.
    change (isWordChar d || N.eqb d 45) with (mentionChar d). rewrite Hd.
    change (fun d0 => isWordChar d0 || N.eqb d0 45) with mentionChar.
    change (d :: a ++ nl :: nl :: response ++ nl :: nl :: marker)
      with ((d :: a) ++ nl :: nl :: response ++ nl :: nl :: marker).
    rewrite dropWhile_app_all by (simpl; rewrite Hd, Ha; reflexivity).
    reflexivity. }
  rewrite Hm.
  destruct (forallb isWhiteSpace response) eqn:E.
  - rewrite (dropWhile_app_all _ _ _ E), (trim_all_white _ E). reflexivity.
  - rewrite (dropWhile_app_some _ _ _ E).
    change (dropWhile isWhiteSpace response ++ nl :: nl :: marker)
      with (trimStart response ++ [nl; nl] ++ marker).
    rewrite app_assoc, stripMarker_at_end.
    rewrite dropWhileEnd_app_all by reflexivity.
    rewrite trim_drop_newlines. apply trim_trimStart.
Qed.

Lemma published_answer_round_trip_witness :
  classify {| comment_body :=
                responseWithTag (lit "alice-2")
                  ([nl] ++ lit "Use `npm ci`." ++ [nl]);
              comment_user_login := lit "github-actions[bot]";
              comment_created_at := lit "2025-01-02T00:00:09Z" |} =
  {| entry_role := assistant;
     author := lit "github-actions[bot]";
     timestamp := lit "2025-01-02T00:00:09Z";
     content := trim ([nl] ++ lit "Use `npm ci`." ++ [nl]) |}.
Proof.
  apply published_answer_round_trip; [discriminate | reflexivity].
Defined.

(** X10.  A comment whose text starts with the trigger marker and passes
    the guard of [main] is recorded in the history as a user prompt whose
    content is the command text that [main] parses from it. *)
Theorem prompt_recorded_as_parsed (c : comment) :
  startsWith trigger (comment_body c) = true ->
  startsWith trigger (trim (comment_body c)) = true ->
  classify c =
  {| entry_role := user_prompt;
     author := comment_user_login c;
     timestamp := comment_created_at c;
     content := commandContentOf (trim (comment_body c)) |}.
Proof.
  intros Hb Ht. unfold classify. rewrite Ht. cbv iota. cbn [fst snd].
  f_equal. unfold commandContentOf, substring.
  destruct (startsWith_inv _ _ Hb) as [r Hr]. rewrite Hr in *.
  assert (Hr' : forallb isWhiteSpace r = false).
  { destruct (forallb isWhiteSpace r) eqn:E; [| reflexivity].
    unfold trim, trimEnd in Ht. rewrite (dropWhileEnd_app_all _ _ _ E) in Ht.
    discriminate Ht. }
  unfold trim at 3. unfold trimEnd.
  rewrite (dropWhileEnd_app_some _ _ _ Hr').
  change (trimStart (trigger ++ dropWhileEnd isWhiteSpace r))
    with (trigger ++ trimEnd r).
  change (skipn 4 (trigger ++ r)) with r.
  change (skipn 4 (trigger ++ trimEnd r)) with (trimEnd r).
  unfold trim. rewrite trimEnd_idem. reflexivity.
Qed.

Lemma prompt_recorded_as_parsed_witness :
  classify {| comment_body := lit "/ai  gpt why?  ";
              comment_user_login := lit "alice";
              comment_created_at := lit "2025-01-02T00:00:00Z" |} =
  {| entry_role := user_prompt;
     author := lit "alice";
     timestamp := lit "2025-01-02T00:00:00Z";
     content := commandContentOf (trim (lit "/ai  gpt why?  ")) |}.
Proof.
  apply (prompt_recorded_as_parsed
           {| comment_body := lit "/ai  gpt why?  ";
              comment_user_login := lit "alice";
              comment_created_at := lit "2025-01-02T00:00:00Z" |});
    reflexivity.
Defined.

(** ** The serialized history read back *)

Lemma unhex_hex (d : N) : (d < 16)%N -> unhexDigit (hexDigit d) = d.
Proof.
  intro H. unfold hexDigit, unhexDigit.
  destruct (N.ltb_spec d 10).
  - destruct (N.leb_spec (48 + d) 57); lia.
  - destruct (N.leb_spec (87 + d) 57); lia.
Qed.

Lemma unicodeEscape_read (c : N) (rest : jsstring) :
  (c < 65536)%N ->
  readUnits (unicodeEscape c ++ rest) = consFst c (readUnits rest).
Proof.
  intro H. unfold unicodeEscape. cbn [app readUnits].
  change (N.eqb 92 34) with false. change (N.eqb 92 92) with true.
  change (N.eqb 117 117) with true. cbv iota.
  rewrite !unhex_hex by (apply N.mod_lt; discriminate).
  f_equal.
  assert (E2 : (c / 256 = c / 16 / 16)%N)
    by (rewrite N.Div0.div_div; reflexivity).
  assert (E3 : (c / 4096 = c / 16 / 16 / 16)%N)
    by (rewrite !N.Div0.div_div; reflexivity).
  rewrite E2, E3.
  pose proof (N.div_mod c 16 ltac:(discriminate)).
  pose proof (N.div_mod (c / 16) 16 ltac:(discriminate)).
  pose proof (N.div_mod (c / 16 / 16) 16 ltac:(discriminate)).
  assert (c / 16 / 16 / 16 < 16)%N.
  { rewrite <- E3. apply N.Div0.div_lt_upper_bound. exact H. }
  rewrite (N.mod_small (c / 16 / 16 / 16) 16) by assumption.
  lia.
Qed.

Lemma quoteUnit_read (c : N) (rest : jsstring) :
  readUnits (quoteUnit c ++ rest) = consFst c (readUnits rest).
Proof.
  unfold quoteUnit.
  destruct (N.eqb_spec c 8) as [-> | N8]; [reflexivity |].
  destruct (N.eqb_spec c 9) as [-> | N9]; [reflexivity |].
  destruct (N.eqb_spec c 10) as [-> | N10]; [reflexivity |].
  destruct (N.eqb_spec c 12) as [-> | N12]; [reflexivity |].
  destruct (N.eqb_spec c 13) as [-> | N13]; [reflexivity |].
  destruct (N.eqb_spec c 34) as [-> | N34]; [reflexivity |].
  destruct (N.eqb_spec c 92) as [-> | N92]; [reflexivity |].
  destruct (N.ltb c 32 || isLeadSurrogate c || isTrailSurrogate c) eqn:E.
  - apply unicodeEscape_read.
    unfold isLeadSurrogate, isTrailSurrogate in E.
    repeat (apply orb_true_iff in E; destruct E as [E | E]).
    + apply N.ltb_lt in E. lia.
    + apply andb_true_iff in E. destruct E as [_ E]. apply N.leb_le in E. lia.
    + apply andb_true_iff in E. destruct E as [_ E]. apply N.leb_le in E. lia.
  - apply orb_false_iff in E. destruct E as [E _].
    apply orb_false_iff in E. destruct E as [E _].
    cbn [app readUnits].
    apply N.eqb_neq in N92, N34. rewrite N92, N34, E. reflexivity.
Qed.

(** Reading what [quoteUnits] wrote gives the string again, and stops at
    the closing quote. *)
Lemma readUnits_quoteUnits (s rest : jsstring) :
  readUnits (quoteUnits s ++ dquote :: rest) = Some (s, rest).
Proof.
  assert (H : readUnits (quoteUnits s ++ dquote :: rest) = Some (s, rest) /\
              forall c, readUnits (quoteUnits (c :: s) ++ dquote :: rest)
                        = Some (c :: s, rest)).
  { induction s as [| d s [IH1 IH2]].
    - split; [reflexivity |]. intro c. simpl quoteUnits.
      rewrite quoteUnit_read. reflexivity.
    - split; [apply IH2 |]. intro c.
      change (quoteUnits (c :: d :: s))
        with (if isLeadSurrogate c && isTrailSurrogate d
              then c :: d :: quoteUnits s
              else quoteUnit c ++ quoteUnits (d :: s)).
      destruct (isLeadSurrogate c && isTrailSurrogate d) eqn:E.
      + apply andb_true_iff in E. destruct E as [Ec Ed].
        unfold isLeadSurrogate in Ec. unfold isTrailSurrogate in Ed.
        apply andb_true_iff in Ec. destruct Ec as [Ec _].
        apply andb_true_iff in Ed. destruct Ed as [Ed _].
        apply N.leb_le in Ec, Ed.
        cbn [app readUnits].
        assert (Hc : N.eqb c 34 = false) by (apply N.eqb_neq; lia).
        assert (Hc' : N.eqb c 92 = false) by (apply N.eqb_neq; lia).
        assert (Hc'' : N.ltb c 32 = false) by (apply N.ltb_ge; lia).
        assert (Hd : N.eqb d 34 = false) by (apply N.eqb_neq; lia).
        assert (Hd' : N.eqb d 92 = false) by (apply N.eqb_neq; lia).
        assert (Hd'' : N.ltb d 32 = false) by (apply N.ltb_ge; lia).
        rewrite Hc, Hc', Hc'', Hd, Hd', Hd'', IH1. reflexivity.
      + rewrite <- app_assoc, quoteUnit_read, IH2. reflexivity. }
  exact (proj1 H).
Qed.

Lemma expect_app (p s : jsstring) : expect p (p ++ s) = Some s.
Proof.
  unfold expect. rewrite startsWith_app.
  f_equal. induction p as [| c p IH]; simpl; [reflexivity | exact IH].
Qed.

Lemma readString_quote (s rest : jsstring) :
  readString (quoteJSONString s ++ rest) = Some (s, rest).
Proof.
  unfold readString, quoteJSONString.
  change (([dquote] ++ quoteUnits s ++ [dquote]) ++ rest)
    with ([dquote] ++ ((quoteUnits s ++ [dquote]) ++ rest)).
  rewrite expect_app, <- app_assoc. apply readUnits_quoteUnits.
Qed.

Lemma readMember_member (sep key value rest : jsstring) :
  readMember sep key (sep ++ member key value ++ rest) = Some (value, rest).
Proof.
  unfold readMember, member.
  replace (sep ++ (quoteJSONString key ++ lit ": " ++ quoteJSONString value) ++ rest)
    with ((sep ++ quoteJSONString key ++ lit ": ") ++ quoteJSONString value ++ rest)
    by (repeat rewrite <- app_assoc; reflexivity).
  rewrite expect_app. apply readString_quote.
Qed.

Lemma readRole_roleName (r : role) : readRole (roleName r) = Some r.
Proof. destruct r; reflexivity. Qed.

Lemma stringifyEntry_shape (e : entry) (rest : jsstring) :
  stringifyEntry e ++ rest =
  (lit "{" ++ [nl] ++ lit "    ") ++ member (lit "role") (roleName (entry_role e)) ++
  (lit "," ++ [nl] ++ lit "    ") ++ member (lit "author") (author e) ++
  (lit "," ++ [nl] ++ lit "    ") ++ member (lit "timestamp") (timestamp e) ++
  (lit "," ++ [nl] ++ lit "    ") ++ member (lit "content") (content e) ++
  ([nl] ++ lit "  }") ++ rest.
Proof.
  unfold stringifyEntry. cbn [join]. repeat rewrite <- app_assoc. reflexivity.
Qed.

Lemma readEntry_stringifyEntry (e : entry) (rest : jsstring) :
  readEntry (stringifyEntry e ++ rest) = Some (e, rest).
Proof.
  rewrite stringifyEntry_shape. unfold readEntry.
  rewrite readMember_member, readRole_roleName.
  rewrite readMember_member, readMember_member, readMember_member.
  rewrite expect_app. destruct e; reflexivity.
Qed.

Lemma readEntries_join (es : list entry) (e : entry) (fuel : nat) :
  (List.length es < fuel)%nat ->
  readEntries fuel
    (join (lit "," ++ [nl] ++ lit "  ") (map stringifyEntry (e :: es))
     ++ [nl] ++ lit "]") = Some (e :: es).
Proof.
  revert e fuel. induction es as [| e' es IH]; intros e fuel Hf.
  - destruct fuel; [inversion Hf |]. cbn [map join readEntries].
    rewrite readEntry_stringifyEntry. reflexivity.
  - destruct fuel; [inversion Hf |].
    change (join (lit "," ++ [nl] ++ lit "  ") (map stringifyEntry (e :: e' :: es)))
      with (stringifyEntry e ++ (lit "," ++ [nl] ++ lit "  ") ++
            join (lit "," ++ [nl] ++ lit "  ") (map stringifyEntry (e' :: es))).
    cbn [readEntries]. rewrite <- app_assoc, readEntry_stringifyEntry.
    rewrite <- app_assoc.
    change (streq ((lit "," ++ [nl] ++ lit "  ") ++ _) ([nl] ++ lit "]"))
      with false. cbv iota.
    rewrite expect_app, IH by (simpl in Hf; lia). reflexivity.
Qed.

Lemma stringify_length (es : list entry) :
  (List.length es < List.length (stringify es))%nat.
Proof.
  destruct es as [| e es]; [vm_compute; lia |].
  unfold stringify. rewrite !length_app.
  assert (H : forall l, (List.length l <=
             List.length (join (lit "," ++ [nl] ++ lit "  ")
                            (map stringifyEntry l)))%nat).
  { induction l as [| x l IHl]; [simpl; lia |].
    destruct l as [| y l'].
    - simpl. unfold stringifyEntry. rewrite !length_app. simpl. lia.
    - change (join (lit "," ++ [nl] ++ lit "  ") (map stringifyEntry (x :: y :: l')))
        with (stringifyEntry x ++ (lit "," ++ [nl] ++ lit "  ") ++
              join (lit "," ++ [nl] ++ lit "  ") (map stringifyEntry (y :: l'))).
      rewrite !length_app. simpl in *. lia. }
  specialize (H (e :: es)). simpl in *. lia.
Qed.

Lemma stringify_shape (e : entry) (es : list entry) :
  stringify (e :: es) =
  (lit "[" ++ [nl] ++ lit "  ") ++
  (join (lit "," ++ [nl] ++ lit "  ") (map stringifyEntry (e :: es))
   ++ [nl] ++ lit "]").
Proof. unfold stringify. repeat rewrite <- app_assoc. reflexivity. Qed.

(** The array that [stringify] writes reads back as its entries. *)
Lemma history_round_trip (es : list entry) :
  readHistory (stringify es) = Some es.
Proof.
  destruct es as [| e es]; [reflexivity |].
  unfold readHistory.
  pose proof (stringify_length (e :: es)) as Hlen.
  rewrite stringify_shape in *.
  change (streq ((lit "[" ++ [nl] ++ lit "  ") ++ _) (lit "[]")) with false.
  cbv iota. rewrite expect_app. apply readEntries_join. simpl in *. lia.
Qed.

Lemma history_read (cs : list comment) :
  readHistory (orElse (Some (commentsText cs)) (lit "[]"))
    = Some (map classify cs).
Proof.
  destruct cs as [| c cs]; [reflexivity |].
  unfold commentsText. cbn [List.length Nat.ltb Nat.leb].
  cbn [map]. unfold orElse. rewrite stringify_shape.
  change (truthyStr ((lit "[" ++ [nl] ++ lit "  ") ++ _)) with true.
  cbv iota. rewrite <- stringify_shape. apply history_round_trip.
Qed.

(** X11.  The conversation history that goes into the system message, the
    serialized thread or [[]] for an empty thread, reads back as the
    classified comments in their order: roles, authors, timestamps and
    contents, whatever characters the comments hold. *)
Theorem history_reads_back (cs : list comment) :
  readHistory (orElse (Some (commentsText cs)) (lit "[]"))
    = Some (map classify cs).
Proof. apply history_read. Qed.

(** X12.  Two threads with the same serialized history have the same
    classified entries. *)
Theorem history_injective (cs1 cs2 : list comment) :
  commentsText cs1 = commentsText cs2 ->
  map classify cs1 = map classify cs2.
Proof.
  intro H. pose proof (history_read cs1) as H1. rewrite H in H1.
  rewrite history_read in H1. inversion H1. reflexivity.
Qed.

Lemma history_injective_witness :
  map classify
    [{| comment_body := lit "/ai why?";
        comment_user_login := lit "alice";
        comment_created_at := lit "t" |}] =
  map classify
    [{| comment_body := lit "/ai why?  ";
        comment_user_login := lit "alice";
        comment_created_at := lit "t" |}].
Proof.
  apply history_injective. reflexivity.
Defined.
